(** * ImageComponent: interaction handlers of the image node

    A shallow embedding of
    [src/components/text-editor/plugins/ImagePlugin/ImageComponent.tsx].

    The handlers of the component are effectful: they read and write the
    editor state (node map and selection), DOM focus, the module-level
    [imageCache], React state ([isResizing]) and refs, and they schedule
    timers.  They are written here in a small state-and-exception monad [M]
    over an explicit [World]; a JavaScript [throw] is the [Throw] outcome. *)

From stdpp Require Import base decidable option list strings gmap.

(** ** Data *)

(** [NodeKey] of lexical: node keys are strings. *)
Abbreviation NodeKey := string (only parsing).

(** A DOM element: its identity and its [tagName].  The strict equality
    [===] of two element references is equality of these records. *)
Record Element := { el_id : nat; tagName : string }.

Global Instance Element_eq_dec : EqDecision Element.
Proof. solve_decision. Defined.

(** A lexical editor handle ([LexicalEditor]), compared by identity. *)
Record LexicalEditor := { editor_id : nat }.

Global Instance LexicalEditor_eq_dec : EqDecision LexicalEditor.
Proof. solve_decision. Defined.

(** ["inherit" | number] *)
Inductive Dimension := inherit | number (px : Z).

Global Instance Dimension_eq_dec : EqDecision Dimension.
Proof. solve_decision. Defined.

(** Modelled from the spec: the image node type of [./ImageNode] is not
    part of the sources.  Only the attributes reached through the mutation
    contract (dimensions, caption visibility) and the source are kept. *)
Record ImageNode := {
  __src : string;
  __width : Dimension;
  __height : Dimension;
  __showCaption : bool
}.

Global Instance ImageNode_eq_dec : EqDecision ImageNode.
Proof. solve_decision. Defined.

(** A document node: an image node, or a node of some other type. *)
Inductive LexicalNode :=
  | Image (n : ImageNode)
  | OtherNode (type : string).

Global Instance LexicalNode_eq_dec : EqDecision LexicalNode.
Proof. solve_decision. Defined.

(** Modelled from the spec: the selection object of the host editor
    ([RangeSelection | NodeSelection | GridSelection], [null] is [None]).
    A node selection is a set of node keys; a range selection is kept as the
    keys of the nodes it spans, which is all [getNodes()] needs. *)
Inductive BaseSelection :=
  | RangeSelection (spanned : list NodeKey)
  | NodeSelection (_nodes : gset NodeKey)
  | GridSelection.

Global Instance BaseSelection_eq_dec : EqDecision BaseSelection.
Proof. solve_decision. Defined.

(** Events.  [ev_id] identifies the event object, so that [preventDefault]
    can be recorded; [target] is [EventTarget | null]. *)
Record MouseEvent := {
  me_id : nat;
  me_target : option Element;
  shiftKey : bool;
  ctrlKey : bool;
  altKey : bool;
  metaKey : bool
}.

Record KeyboardEvent := {
  ke_id : nat;
  ke_target : option Element
}.

Global Instance MouseEvent_eq_dec : EqDecision MouseEvent.
Proof. solve_decision. Defined.

Global Instance KeyboardEvent_eq_dec : EqDecision KeyboardEvent.
Proof. solve_decision. Defined.

(** The commands this component listens to, each with its payload. *)
Inductive Command :=
  | SELECTION_CHANGE_COMMAND
  | CLICK_COMMAND (e : MouseEvent)
  | RIGHT_CLICK_IMAGE_COMMAND (e : MouseEvent)
  | KEY_DELETE_COMMAND (e : KeyboardEvent)
  | KEY_BACKSPACE_COMMAND (e : KeyboardEvent)
  | KEY_ENTER_COMMAND (e : KeyboardEvent)
  | KEY_ESCAPE_COMMAND (e : KeyboardEvent).

Global Instance Command_eq_dec : EqDecision Command.
Proof. solve_decision. Defined.

(** What holds input focus ([document.activeElement]): a DOM element, or the
    editing surface of a (nested) editor. *)
Inductive Focus :=
  | FocusElement (e : Element)
  | FocusEditor (ed : LexicalEditor).

Global Instance Focus_eq_dec : EqDecision Focus.
Proof. solve_decision. Defined.

(** The only timer callback of the file: [() => { setIsResizing(false) }]. *)
Inductive TimerCallback := ResetIsResizing.

(** ** The world the handlers run in *)

Record World := {
  (* editor state of the parent editor *)
  nodeMap : gmap NodeKey LexicalNode;
  selection : option BaseSelection;
  (* DOM *)
  rootElement : option Element;
  activeElement : option Focus;
  defaultPrevented : gset nat;
  (* module level: [imageCache], and the [Image] objects created so far *)
  imageCache : gset string;
  images : list string;
  (* refs and React state of this instance *)
  imageRef : option Element;
  buttonRef : option Element;
  activeEditorRef : option LexicalEditor;
  isResizingState : bool;
  (* timers *)
  now : nat;
  timers : list (nat * TimerCallback);
  (* commands handed to [editor.dispatchCommand] *)
  dispatched : list Command
}.

Definition set_nodeMap (m : gmap NodeKey LexicalNode) (w : World) : World :=
  {| nodeMap := m; selection := selection w; rootElement := rootElement w;
     activeElement := activeElement w; defaultPrevented := defaultPrevented w;
     imageCache := imageCache w; images := images w; imageRef := imageRef w;
     buttonRef := buttonRef w; activeEditorRef := activeEditorRef w;
     isResizingState := isResizingState w; now := now w; timers := timers w;
     dispatched := dispatched w |}.

Definition set_selection (s : option BaseSelection) (w : World) : World :=
  {| nodeMap := nodeMap w; selection := s; rootElement := rootElement w;
     activeElement := activeElement w; defaultPrevented := defaultPrevented w;
     imageCache := imageCache w; images := images w; imageRef := imageRef w;
     buttonRef := buttonRef w; activeEditorRef := activeEditorRef w;
     isResizingState := isResizingState w; now := now w; timers := timers w;
     dispatched := dispatched w |}.

Definition set_activeElement (f : option Focus) (w : World) : World :=
  {| nodeMap := nodeMap w; selection := selection w; rootElement := rootElement w;
     activeElement := f; defaultPrevented := defaultPrevented w;
     imageCache := imageCache w; images := images w; imageRef := imageRef w;
     buttonRef := buttonRef w; activeEditorRef := activeEditorRef w;
     isResizingState := isResizingState w; now := now w; timers := timers w;
     dispatched := dispatched w |}.

Definition set_defaultPrevented (s : gset nat) (w : World) : World :=
  {| nodeMap := nodeMap w; selection := selection w; rootElement := rootElement w;
     activeElement := activeElement w; defaultPrevented := s;
     imageCache := imageCache w; images := images w; imageRef := imageRef w;
     buttonRef := buttonRef w; activeEditorRef := activeEditorRef w;
     isResizingState := isResizingState w; now := now w; timers := timers w;
     dispatched := dispatched w |}.

Definition set_imageCache (s : gset string) (w : World) : World :=
  {| nodeMap := nodeMap w; selection := selection w; rootElement := rootElement w;
     activeElement := activeElement w; defaultPrevented := defaultPrevented w;
     imageCache := s; images := images w; imageRef := imageRef w;
     buttonRef := buttonRef w; activeEditorRef := activeEditorRef w;
     isResizingState := isResizingState w; now := now w; timers := timers w;
     dispatched := dispatched w |}.

Definition set_images (l : list string) (w : World) : World :=
  {| nodeMap := nodeMap w; selection := selection w; rootElement := rootElement w;
     activeElement := activeElement w; defaultPrevented := defaultPrevented w;
     imageCache := imageCache w; images := l; imageRef := imageRef w;
     buttonRef := buttonRef w; activeEditorRef := activeEditorRef w;
     isResizingState := isResizingState w; now := now w; timers := timers w;
     dispatched := dispatched w |}.

Definition set_activeEditorRef (r : option LexicalEditor) (w : World) : World :=
  {| nodeMap := nodeMap w; selection := selection w; rootElement := rootElement w;
     activeElement := activeElement w; defaultPrevented := defaultPrevented w;
     imageCache := imageCache w; images := images w; imageRef := imageRef w;
     buttonRef := buttonRef w; activeEditorRef := r;
     isResizingState := isResizingState w; now := now w; timers := timers w;
     dispatched := dispatched w |}.

Definition set_isResizingState (b : bool) (w : World) : World :=
  {| nodeMap := nodeMap w; selection := selection w; rootElement := rootElement w;
     activeElement := activeElement w; defaultPrevented := defaultPrevented w;
     imageCache := imageCache w; images := images w; imageRef := imageRef w;
     buttonRef := buttonRef w; activeEditorRef := activeEditorRef w;
     isResizingState := b; now := now w; timers := timers w;
     dispatched := dispatched w |}.

Definition set_clock (t : nat) (l : list (nat * TimerCallback)) (w : World) : World :=
  {| nodeMap := nodeMap w; selection := selection w; rootElement := rootElement w;
     activeElement := activeElement w; defaultPrevented := defaultPrevented w;
     imageCache := imageCache w; images := images w; imageRef := imageRef w;
     buttonRef := buttonRef w; activeEditorRef := activeEditorRef w;
     isResizingState := isResizingState w; now := t; timers := l;
     dispatched := dispatched w |}.

Definition set_dispatched (l : list Command) (w : World) : World :=
  {| nodeMap := nodeMap w; selection := selection w; rootElement := rootElement w;
     activeElement := activeElement w; defaultPrevented := defaultPrevented w;
     imageCache := imageCache w; images := images w; imageRef := imageRef w;
     buttonRef := buttonRef w; activeEditorRef := activeEditorRef w;
     isResizingState := isResizingState w; now := now w; timers := timers w;
     dispatched := l |}.

(** ** The monad of handlers *)

(** What a JavaScript [throw] carries in this file: a [TypeError] (reading a
    property of [null]), or the pending promise thrown by
    [useSuspenseImage], identified by the index of the [Image] it waits for. *)
Inductive Thrown :=
  | TypeError
  | PendingPromise (img : nat).

Inductive Outcome (A : Type) :=
  | Return (a : A) (w : World)
  | Throw (e : Thrown) (w : World).
Arguments Return {A} a w.
Arguments Throw {A} e w.

Definition M (A : Type) : Type := World → Outcome A.

Global Instance M_ret : MRet M := λ A a w, Return a w.

Global Instance M_bind : MBind M := λ A B f m w,
  match m w with
  | Return a w' => f a w'
  | Throw e w' => Throw e w'
  end.

Definition gets {A} (f : World → A) : M A := λ w, Return (f w) w.
Definition modify (f : World → World) : M unit := λ w, Return tt (f w).
Definition throw {A} (e : Thrown) : M A := λ w, Throw e w.

(** The world an outcome ends in, whether by return or by throw. *)
Definition world_of {A} (o : Outcome A) : World :=
  match o with Return _ w => w | Throw _ w => w end.

(** ** Host substrate

    The functions below belong to lexical, to [@lexical/react] and to the
    DOM, none of which is part of the sources.  Each is modelled on the one
    [World], at the level of the contract the component relies on. *)

(** Modelled from the spec: [$getSelection()] returns the current selection
    of the editor state. *)
Definition getSelection : M (option BaseSelection) := gets selection.

(** Modelled from the spec: [$setSelection(s)] replaces the selection;
    [$setSelection(null)] leaves the document with an empty selection. *)
Definition setSelection (s : option BaseSelection) : M unit :=
  modify (set_selection s).

(** [$isNodeSelection(x)] *)
Definition isNodeSelection (x : option BaseSelection) : bool :=
  match x with Some (NodeSelection _) => true | _ => false end.

(** [$isRangeSelection(x)] *)
Definition isRangeSelection (x : option BaseSelection) : bool :=
  match x with Some (RangeSelection _) => true | _ => false end.

(** Modelled from the spec: [$getNodeByKey(key)] resolves a key to its
    current node, [null] when the node is not in the document. *)
Definition getNodeByKey (key : NodeKey) : M (option LexicalNode) :=
  gets (λ w, nodeMap w !! key).

(** Modelled from the spec: [$isImageNode(node)] of [./ImageNode], which is
    not part of the sources; false on [null]. *)
Definition isImageNode (node : option LexicalNode) : bool :=
  match node with Some (Image _) => true | _ => false end.

(** The node keys a selection designates. *)
Definition selectionKeys (s : BaseSelection) : list NodeKey :=
  match s with
  | RangeSelection spanned => spanned
  | NodeSelection keys => elements keys
  | GridSelection => []
  end.

(** The nodes the keys of a selection resolve to in a node map. *)
Definition liveNodes (m : gmap NodeKey LexicalNode) (s : option BaseSelection)
  : list LexicalNode :=
  omap (λ k, m !! k) (from_option selectionKeys [] s).

(** Modelled from the spec: [selection.getNodes()], the live nodes a
    selection designates; keys that no longer resolve are skipped. *)
Definition getNodes (s : option BaseSelection) : M (list LexicalNode) :=
  gets (λ w, liveNodes (nodeMap w) s).

(** Modelled from the spec: [node.remove()] on the node with key [key]
    removes it from the document. *)
Definition node_remove (key : NodeKey) : M unit :=
  modify (λ w, set_nodeMap (delete key (nodeMap w)) w).

(** Modelled from the spec: [node.setShowCaption(b)] of [./ImageNode]. *)
Definition node_setShowCaption (key : NodeKey) (b : bool) : M unit :=
  modify (λ w, set_nodeMap (alter (λ n,
    match n with
    | Image i => Image {| __src := __src i; __width := __width i;
                          __height := __height i; __showCaption := b |}
    | OtherNode t => OtherNode t
    end) key (nodeMap w)) w).

(** Modelled from the spec: [node.setWidthAndHeight(w, h)] of [./ImageNode]. *)
Definition node_setWidthAndHeight (key : NodeKey) (wd ht : Dimension) : M unit :=
  modify (λ w, set_nodeMap (alter (λ n,
    match n with
    | Image i => Image {| __src := __src i; __width := wd;
                          __height := ht; __showCaption := __showCaption i |}
    | OtherNode t => OtherNode t
    end) key (nodeMap w)) w).

(** Modelled from the spec: [editor.update(fn)] applies the closure of
    mutations to the editor state; [editorState.read(fn)] runs a closure of
    reads.  Both run their closure at once here. *)
Definition editor_update (fn : M unit) : M unit := fn.
Definition editorState_read {A} (fn : M A) : M A := fn.

(** [event.preventDefault()] *)
Definition preventDefault (id : nat) : M unit :=
  modify (λ w, set_defaultPrevented ({[id]} ∪ defaultPrevented w) w).

(** [element.focus()] *)
Definition element_focus (e : Element) : M unit :=
  modify (set_activeElement (Some (FocusElement e))).

(** Modelled from the spec: [caption.focus()] gives input focus to the
    nested editing surface of the editor it is called on. *)
Definition editor_focus (ed : LexicalEditor) : M unit :=
  modify (set_activeElement (Some (FocusEditor ed))).

(** [editor.getRootElement()] *)
Definition getRootElement : M (option Element) := gets rootElement.

(** Modelled from the spec: the command bus runs the listeners of a command
    in priority order and stops at the first one that reports it handled. *)
Fixpoint triggerCommandListeners (listeners : list (M bool)) : M bool :=
  match listeners with
  | [] => mret false
  | l :: rest =>
      handled ← l;
      if (handled : bool) then mret true else triggerCommandListeners rest
  end.

(** Timers: [setTimeout(cb, delay)] files the callback under its due time,
    after the callbacks already due at that time or before. *)
Fixpoint insert_timer (p : nat * TimerCallback) (l : list (nat * TimerCallback))
  : list (nat * TimerCallback) :=
  match l with
  | [] => [p]
  | q :: l' => if decide (q.1 ≤ p.1) then q :: insert_timer p l' else p :: q :: l'
  end.

Definition setTimeout (cb : TimerCallback) (delay : nat) : M unit :=
  modify (λ w, set_clock (now w) (insert_timer (now w + delay, cb) (timers w)) w).

Definition run_callback (w : World) (p : nat * TimerCallback) : World :=
  match p.2 with
  | ResetIsResizing => set_isResizingState false w
  end.

(** The event loop lets [dt] milliseconds pass: the callbacks due by then
    run, in the order of their due times. *)
Definition advance (dt : nat) (w : World) : World :=
  let t := now w + dt in
  foldl run_callback
    (set_clock t (filter (λ p, ¬ p.1 ≤ t) (timers w)) w)
    (filter (λ p, p.1 ≤ t) (timers w)).

(** The [onload] event of the [img]-th [Image] object: its handler
    [() => { imageCache.add(src); resolve(null) }]. *)
Definition img_onload (img : nat) (w : World) : World :=
  match images w !! img with
  | Some src => set_imageCache ({[src]} ∪ imageCache w) w
  | None => w
  end.

(** Modelled from the spec: [useLexicalNodeSelection(key)] of
    [@lexical/react]: [setSelected(b)] adds the key to, or deletes it from,
    the node selection, making a fresh node selection first when the current
    selection is not one; [clearSelection()] empties a node selection. *)
Definition useLexicalNodeSelection_setSelected (key : NodeKey) (selected : bool) : M unit :=
  editor_update (
    sel ← getSelection;
    sel ← (if isNodeSelection sel then mret sel
           else setSelection (Some (NodeSelection ∅));; mret (Some (NodeSelection ∅)));
    match sel with
    | Some (NodeSelection keys) =>
        setSelection (Some (NodeSelection
          (if selected then {[key]} ∪ keys else keys ∖ {[key]})))
    | _ => mret tt
    end).

Definition useLexicalNodeSelection_clearSelected : M unit :=
  editor_update (
    sel ← getSelection;
    if isNodeSelection sel then setSelection (Some (NodeSelection ∅)) else mret tt).

(** ** The source file *)

(** [const imageCache = new Set()] is the [imageCache] field of the world. *)

(** [useSuspenseImage(src)]: constructing the promise runs its executor at
    once, which creates the [Image], sets its [src] and its [onload]. *)
Definition useSuspenseImage (src : string) : M unit :=
  has ← gets (λ w, bool_decide (src ∈ imageCache w));
  if negb has then
    img ← gets (λ w, length (images w));
    modify (λ w, set_images (images w ++ [src]) w);;
    throw (PendingPromise img)
  else mret tt.

Section ImageComponent.
(** Props. *)
Variables (src altText : string) (nodeKey : NodeKey).
Variables (width height : Dimension) (maxWidth : Z).
Variables (resizable showCaption : bool) (caption : LexicalEditor).
Variable (captionsEnabled : bool).
(** [const [editor] = useLexicalComposerContext()] *)
Variable (editor : LexicalEditor).
(** Values of the hooks at this render:
    [useLexicalNodeSelection(nodeKey)] and the two [useState]. *)
Variables (isSelected isResizing : bool).
Variable (selectionSnapshot : option BaseSelection).

Definition setSelected : bool → M unit := useLexicalNodeSelection_setSelected nodeKey.
Definition clearSelection : M unit := useLexicalNodeSelection_clearSelected.
Definition setIsResizing (b : bool) : M unit := modify (set_isResizingState b).

Definition onDelete (payload : KeyboardEvent) : M bool :=
  sel ← getSelection;
  (if isSelected && isNodeSelection sel then
     let event := payload in
     preventDefault (ke_id event);;
     node ← getNodeByKey nodeKey;
     if isImageNode node then node_remove nodeKey else mret tt
   else mret tt);;
  mret false.

Definition onEnter (event : KeyboardEvent) : M bool :=
  latestSelection ← getSelection;
  buttonElem ← gets buttonRef;
  nodes ← getNodes latestSelection;
  if isSelected && isNodeSelection latestSelection && bool_decide (length nodes = 1) then
    if showCaption then
      setSelection None;;
      preventDefault (ke_id event);;
      editor_focus caption;;
      mret true
    else
      active ← gets activeElement;
      match buttonElem with
      | Some b =>
          if bool_decide (active ≠ Some (FocusElement b)) then
            preventDefault (ke_id event);;
            element_focus b;;
            mret true
          else mret false
      | None => mret false
      end
  else mret false.

Definition onEscape (event : KeyboardEvent) : M bool :=
  activeEditor ← gets activeEditorRef;
  button ← gets buttonRef;
  if bool_decide (activeEditor = Some caption) || bool_decide (button = ke_target event) then
    setSelection None;;
    editor_update (
      setSelected true;;
      parentRootElement ← getRootElement;
      match parentRootElement with
      | Some root => element_focus root
      | None => mret tt
      end);;
    mret true
  else mret false.

Definition onClick (payload : MouseEvent) : M bool :=
  let event := payload in
  if isResizing then mret true
  else
    img ← gets imageRef;
    if bool_decide (me_target event = img) then
      (if shiftKey event then setSelected (negb isSelected)
       else clearSelection;; setSelected true);;
      mret true
    else mret false.

(** The listeners registered in the effect, all of them at the priority
    [COMMAND_PRIORITY_LOW]: the listener of this instance for a command.
    Delete and Backspace share [onDelete]; the click command and the
    right-click-on-image command share [onClick]. *)
Definition commandListener (cmd : Command) (activeEditor : LexicalEditor) : M bool :=
  match cmd with
  | SELECTION_CHANGE_COMMAND =>
      modify (set_activeEditorRef (Some activeEditor));; mret false
  | CLICK_COMMAND e => onClick e
  | RIGHT_CLICK_IMAGE_COMMAND e => onClick e
  | KEY_DELETE_COMMAND e => onDelete e
  | KEY_BACKSPACE_COMMAND e => onDelete e
  | KEY_ENTER_COMMAND e => onEnter e
  | KEY_ESCAPE_COMMAND e => onEscape e
  end.

(** [editor.dispatchCommand(type, payload)]: the command is recorded and
    handed to the listeners; only those of this instance are in this world. *)
Definition dispatchCommand (cmd : Command) : M bool :=
  modify (λ w, set_dispatched (dispatched w ++ [cmd]) w);;
  triggerCommandListeners [commandListener cmd editor].

Definition onRightClick (event : MouseEvent) : M unit :=
  editorState_read (
    latestSelection ← getSelection;
    match me_target event with
    | None => throw TypeError
    | Some domElement =>
        nodes ← getNodes latestSelection;
        if bool_decide (tagName domElement = "IMG")
           && isRangeSelection latestSelection
           && bool_decide (length nodes = 1)
        then dispatchCommand (RIGHT_CLICK_IMAGE_COMMAND event);; mret tt
        else mret tt
    end).

Definition setShowCaption : M unit :=
  editor_update (
    node ← getNodeByKey nodeKey;
    if isImageNode node then node_setShowCaption nodeKey true else mret tt).

Definition onResizeEnd (nextWidth nextHeight : Dimension) : M unit :=
  setTimeout ResetIsResizing 200;;
  editor_update (
    node ← getNodeByKey nodeKey;
    if isImageNode node then node_setWidthAndHeight nodeKey nextWidth nextHeight
    else mret tt).

Definition onResizeStart : M unit := setIsResizing true.

Definition draggable : bool :=
  isSelected && isNodeSelection selectionSnapshot && negb isResizing.
Definition isFocused : bool := isSelected || isResizing.
Definition showResizer : bool :=
  resizable && isNodeSelection selectionSnapshot && isFocused.
End ImageComponent.

(** The listener in place when a command arrives is the one registered by
    the latest render, whose closure holds the current [isResizing] state. *)
Definition currentListener (nodeKey : NodeKey) (showCaption : bool)
    (caption : LexicalEditor) (isSelected : bool)
    (cmd : Command) (activeEditor : LexicalEditor) : M bool :=
  λ w, commandListener nodeKey showCaption caption isSelected
         (isResizingState w) cmd activeEditor w.

(** ** Observations used in the statements *)

(** How many [Image] loads have been started for a source. *)
Definition loadsStarted (src : string) (w : World) : nat :=
  length (filter (λ s, s = src) (images w)).

(** Whether a key is selected at node level. *)
Definition nodeSelected (key : NodeKey) (w : World) : bool :=
  match selection w with
  | Some (NodeSelection keys) => bool_decide (key ∈ keys)
  | _ => false
  end.

(** The keys of a node selection; empty for every other selection. *)
Definition nodeKeysOf (s : option BaseSelection) : gset NodeKey :=
  match s with Some (NodeSelection keys) => keys | _ => ∅ end.

(** A world with an empty document, nothing loaded and nothing pending. *)
Definition initialWorld : World :=
  {| nodeMap := ∅; selection := None; rootElement := None;
     activeElement := None; defaultPrevented := ∅;
     imageCache := ∅; images := []; imageRef := None;
     buttonRef := None; activeEditorRef := None;
     isResizingState := false; now := 0; timers := [];
     dispatched := [] |}.

(** ** Scenarios

    Concrete elements, events and worlds on which the statements below are
    evaluated. *)

Definition imgElement : Element := {| el_id := 1; tagName := "IMG" |}.
Definition optionsButton : Element := {| el_id := 2; tagName := "BUTTON" |}.
Definition editorRoot : Element := {| el_id := 0; tagName := "DIV" |}.
Definition parentEditor : LexicalEditor := {| editor_id := 0 |}.
Definition captionEditor : LexicalEditor := {| editor_id := 1 |}.

Definition anImage : ImageNode :=
  {| __src := "a.png"; __width := inherit; __height := inherit;
     __showCaption := false |}.

(** A document with one image node ["img1"], selected at node level, whose
    image element and options button are mounted. *)
Definition selectedWorld : World :=
  {| nodeMap := {[ "img1" := Image anImage ]};
     selection := Some (NodeSelection {[ "img1" ]});
     rootElement := Some editorRoot;
     activeElement := Some (FocusElement editorRoot); defaultPrevented := ∅;
     imageCache := {[ "a.png" ]}; images := ["a.png"]; imageRef := Some imgElement;
     buttonRef := Some optionsButton; activeEditorRef := Some parentEditor;
     isResizingState := false; now := 0; timers := [];
     dispatched := [] |}.

Definition plainClick : MouseEvent :=
  {| me_id := 7; me_target := Some imgElement; shiftKey := false;
     ctrlKey := false; altKey := false; metaKey := false |}.

Definition shiftClick : MouseEvent :=
  {| me_id := 8; me_target := Some imgElement; shiftKey := true;
     ctrlKey := false; altKey := false; metaKey := false |}.

Definition resizingWorld : World := world_of (onResizeStart selectedWorld).

(** Two resize gestures in quick succession: the first ends at time 0, the
    second starts 100 ms later and ends at time 150. *)
Definition secondResizeEnd : World :=
  let s1 := world_of (onResizeStart selectedWorld) in
  let s2 := world_of (onResizeEnd "img1" (number 300) (number 200) s1) in
  let s3 := advance 100 s2 in
  let s4 := world_of (onResizeStart s3) in
  let s5 := advance 50 s4 in
  world_of (onResizeEnd "img1" (number 320) (number 210) s5).

Definition enterKey : KeyboardEvent := {| ke_id := 11; ke_target := Some editorRoot |}.

(** The selected node when the resizer, and so the options button, is not
    mounted; and when the options button already holds focus. *)
Definition noButtonWorld : World :=
  {| nodeMap := nodeMap selectedWorld; selection := selection selectedWorld;
     rootElement := rootElement selectedWorld;
     activeElement := activeElement selectedWorld;
     defaultPrevented := ∅; imageCache := imageCache selectedWorld;
     images := images selectedWorld; imageRef := imageRef selectedWorld;
     buttonRef := None; activeEditorRef := activeEditorRef selectedWorld;
     isResizingState := false; now := 0; timers := []; dispatched := [] |}.

Definition buttonFocusedWorld : World :=
  set_activeElement (Some (FocusElement optionsButton)) selectedWorld.

Definition escapeKey : KeyboardEvent := {| ke_id := 12; ke_target := None |}.

(** The caption editor is active and holds focus, and the parent editor has
    no root element. *)
Definition detachedCaptionWorld : World :=
  {| nodeMap := nodeMap selectedWorld; selection := None;
     rootElement := None;
     activeElement := Some (FocusEditor captionEditor);
     defaultPrevented := ∅; imageCache := imageCache selectedWorld;
     images := images selectedWorld; imageRef := imageRef selectedWorld;
     buttonRef := Some optionsButton; activeEditorRef := Some captionEditor;
     isResizingState := false; now := 0; timers := []; dispatched := [] |}.

(** A document with a paragraph text node and two image nodes; the
    selection is a range inside the text node. *)
Definition otherImgElement : Element := {| el_id := 5; tagName := "IMG" |}.

Definition textRangeWorld : World :=
  {| nodeMap := {[ "img1" := Image anImage; "img2" := Image anImage;
                   "t1" := OtherNode "text" ]};
     selection := Some (RangeSelection [ "t1" ]);
     rootElement := Some editorRoot;
     activeElement := Some (FocusElement editorRoot); defaultPrevented := ∅;
     imageCache := {[ "a.png" ]}; images := ["a.png"]; imageRef := Some imgElement;
     buttonRef := None; activeEditorRef := Some parentEditor;
     isResizingState := false; now := 0; timers := [];
     dispatched := [] |}.

(** The same document when the range selection holds the node ["img1"] and
    nothing else. *)
Definition imageRangeWorld : World :=
  set_selection (Some (RangeSelection [ "img1" ])) textRangeWorld.

Definition rightClickOnImage : MouseEvent :=
  {| me_id := 9; me_target := Some imgElement; shiftKey := false;
     ctrlKey := false; altKey := false; metaKey := false |}.

Definition rightClickOnOtherImage : MouseEvent :=
  {| me_id := 10; me_target := Some otherImgElement; shiftKey := false;
     ctrlKey := false; altKey := false; metaKey := false |}.

(** The node ["img1"] has been deleted from the document while its
    component is still mounted. *)
Definition deletedNodeWorld : World := set_nodeMap ∅ selectedWorld.

Definition deleteKey : KeyboardEvent := {| ke_id := 13; ke_target := Some editorRoot |}.

(** ** Rendering

    [LazyImage] and the element tree the component returns. *)

(** The attributes of the rendered [img] element. *)
Record ImgProps := {
  img_className : option string;
  img_src : string;
  img_alt : string;
  style_height : Dimension;
  style_maxWidth : Z;
  style_width : Dimension;
  img_draggable : string
}.

Global Instance ImgProps_eq_dec : EqDecision ImgProps.
Proof. solve_decision. Defined.

(** [className || undefined]: [null] and the empty string give no class. *)
Definition classNameOrUndefined (className : option string) : option string :=
  match className with
  | Some c => if bool_decide (c = "") then None else Some c
  | None => None
  end.

(** [LazyImage(props)]: suspends through [useSuspenseImage], then returns
    the [img] element. *)
Definition LazyImage (altText : string) (className : option string)
    (src : string) (width height : Dimension) (maxWidth : Z) : M ImgProps :=
  useSuspenseImage src;;
  mret {| img_className := classNameOrUndefined className;
          img_src := src;
          img_alt := altText;
          style_height := height;
          style_maxWidth := maxWidth;
          style_width := width;
          img_draggable := "false" |}.

(** The class given to [LazyImage]:
    [isFocused ? `focused ${$isNodeSelection(selection) ? "draggable" : ""}` : null]. *)
Definition imageClassName (isSelected isResizing : bool)
    (selectionSnapshot : option BaseSelection) : option string :=
  if isFocused isSelected isResizing then
    Some ("focused " +:+
          (if isNodeSelection selectionSnapshot then "draggable" else ""))
  else None.

(** What the component renders inside [Suspense]: the wrapper [div] with its
    [draggable] attribute and the image, whether the caption container is
    there, and whether [ImageResizer] is there. *)
Record Rendered := {
  wrapper_draggable : bool;
  lazyImage : ImgProps;
  captionContainer : bool;
  imageResizer : bool
}.

(** Modelled from the spec: [<Suspense fallback={f}>] of React renders the
    fallback in place of its children when one of them throws a pending
    promise; any other throw passes through. *)
Definition Suspense {A} (fallback : A) (children : M A) : M A := λ w,
  match children w with
  | Throw (PendingPromise _) w' => Return fallback w'
  | o => o
  end.

(** The [return] of [ImageComponent]; [None] is the [null] fallback. *)
Definition ImageComponent_render (src altText : string)
    (width height : Dimension) (maxWidth : Z) (resizable showCaption : bool)
    (isSelected isResizing : bool) (selectionSnapshot : option BaseSelection)
  : M (option Rendered) :=
  Suspense None (
    img ← LazyImage altText (imageClassName isSelected isResizing selectionSnapshot)
            src width height maxWidth;
    mret (Some {| wrapper_draggable := draggable isSelected isResizing selectionSnapshot;
                  lazyImage := img;
                  captionContainer := showCaption;
                  imageResizer := showResizer resizable isSelected isResizing
                                    selectionSnapshot |})).

(** ** The loader as a transition system *)

(** What happens to the module-level loader: a component calls
    [useSuspenseImage], or the [onload] of an [Image] fires. *)
Inductive LoaderEvent :=
  | CallUseSuspenseImage (src : string)
  | ImageLoaded (img : nat).

Definition loaderStep (w : World) (e : LoaderEvent) : World :=
  match e with
  | CallUseSuspenseImage src => world_of (useSuspenseImage src w)
  | ImageLoaded img => img_onload img w
  end.

(** Every cached source is the source of an [Image] that was created. *)
Definition cacheBacked (w : World) : Prop :=
  ∀ src, src ∈ imageCache w → src ∈ images w.

(** More scenarios. *)
Definition escapeOnButton : KeyboardEvent :=
  {| ke_id := 14; ke_target := Some optionsButton |}.

Definition twoImagesSelectedWorld : World :=
  set_selection (Some (NodeSelection {[ "img1"; "img2" ]}))
    (set_nodeMap {[ "img1" := Image anImage; "img2" := Image anImage ]}
       selectedWorld).

Definition clickElsewhere : MouseEvent :=
  {| me_id := 15; me_target := Some editorRoot; shiftKey := false;
     ctrlKey := false; altKey := false; metaKey := false |}.

Definition rightClickNoTarget : MouseEvent :=
  {| me_id := 16; me_target := None; shiftKey := false;
     ctrlKey := false; altKey := false; metaKey := false |}.

(** ** Proof support *)

Ltac unfold_M :=
  unfold mbind, M_bind, mret, M_ret, gets, modify, throw,
    editor_update, editorState_read in *.

Lemma loadsStarted_set_images_app src (l : list string) w :
  loadsStarted src (set_images (images w ++ l) w)
  = loadsStarted src w + length (filter (λ s, s = src) l).
Proof.
  unfold loadsStarted. simpl. by rewrite filter_app, length_app.
Qed.

Lemma useSuspenseImage_cached src w :
  src ∈ imageCache w → useSuspenseImage src w = Return tt w.
Proof.
  intros Hin. unfold useSuspenseImage. unfold_M.
  by rewrite bool_decide_eq_true_2.
Qed.

Lemma useSuspenseImage_pending src w :
  src ∉ imageCache w →
  useSuspenseImage src w
  = Throw (PendingPromise (length (images w))) (set_images (images w ++ [src]) w).
Proof.
  intros Hin. unfold useSuspenseImage. unfold_M.
  by rewrite bool_decide_eq_false_2.
Qed.

(** ** AssetLoadGate *)

(** C1, as the code has it: a call for a source that is already in
    [imageCache] returns without starting a load.  A call for a source that
    is not yet in [imageCache] starts a load of its own and throws its
    promise, and so does a second call made before the first load completes:
    two loads are then under way.  Once one of them completes, further calls
    start none. *)
Theorem useSuspenseImage_one_load_per_call (src : string) (w : World) :
  ((src ∈ imageCache w) ∧ useSuspenseImage src w = Return tt w)
  ∨ ((src ∉ imageCache w) ∧
     ∃ w1 w2,
       useSuspenseImage src w = Throw (PendingPromise (length (images w))) w1
       ∧ loadsStarted src w1 = S (loadsStarted src w)
       ∧ (src ∉ imageCache w1)
       ∧ useSuspenseImage src w1 = Throw (PendingPromise (S (length (images w)))) w2
       ∧ loadsStarted src w2 = S (S (loadsStarted src w))
       ∧ let w3 := img_onload (length (images w)) w2 in
         (src ∈ imageCache w3)
         ∧ useSuspenseImage src w3 = Return tt w3).
Proof.
  destruct (decide (src ∈ imageCache w)) as [Hin|Hout].
  - left. split; [done|]. by apply useSuspenseImage_cached.
  - right. split; [done|].
    set (w1 := set_images (images w ++ [src]) w).
    set (w2 := set_images (images w1 ++ [src]) w1).
    exists w1, w2.
    assert (Hf : length (filter (λ s, s = src) [src]) = 1).
    { rewrite filter_cons_True by done. done. }
    assert (Hlen1 : length (images w1) = S (length (images w))).
    { subst w1. simpl. rewrite length_app. simpl. lia. }
    assert (Hlook : images w2 !! length (images w) = Some src).
    { subst w2 w1. simpl.
      rewrite <- app_assoc. rewrite lookup_app_r by lia.
      by rewrite Nat.sub_diag. }
    repeat split.
    + by apply useSuspenseImage_pending.
    + subst w1. rewrite loadsStarted_set_images_app, Hf. lia.
    + done.
    + rewrite <- Hlen1. by apply useSuspenseImage_pending.
    + subst w2. rewrite loadsStarted_set_images_app, Hf.
      subst w1. rewrite loadsStarted_set_images_app, Hf. lia.
    + unfold img_onload. rewrite Hlook. simpl. set_solver.
    + apply useSuspenseImage_cached.
      unfold img_onload. rewrite Hlook. simpl. set_solver.
Qed.

(** C1, as stated, fails: from the initial world, two calls for ["a.png"]
    made before any load completes start two loads, not one. *)
Lemma useSuspenseImage_second_call_loads_again :
  let w1 := world_of (useSuspenseImage "a.png" initialWorld) in
  let w2 := world_of (useSuspenseImage "a.png" w1) in
  ("a.png" ∉ imageCache w1)
  ∧ images w1 = ["a.png"]
  ∧ images w2 = ["a.png"; "a.png"]
  ∧ loadsStarted "a.png" w2 = 2
  ∧ loadsStarted "a.png" w2 ≠ 1.
Proof.
  cbv zeta. repeat split; vm_compute; done.
Qed.

(** ** SelectionBridge: what the two callbacks of the hook do *)

Lemma setSelected_run key (b : bool) w :
  setSelected key b w
  = Return tt (set_selection (Some (NodeSelection
      (if b then {[key]} ∪ nodeKeysOf (selection w)
       else nodeKeysOf (selection w) ∖ {[key]}))) w).
Proof.
  unfold setSelected, useLexicalNodeSelection_setSelected, getSelection, setSelection.
  unfold_M. by destruct (selection w) as [[]|].
Qed.

Lemma clearSelection_run w :
  clearSelection w
  = Return tt (if isNodeSelection (selection w)
               then set_selection (Some (NodeSelection ∅)) w else w).
Proof.
  unfold clearSelection, useLexicalNodeSelection_clearSelected, getSelection, setSelection.
  unfold_M. by destruct (selection w) as [[]|].
Qed.

Lemma nodeSelected_set_selection key keys w :
  nodeSelected key (set_selection (Some (NodeSelection keys)) w) = bool_decide (key ∈ keys).
Proof. done. Qed.

Lemma nodeSelected_nodeKeysOf key w :
  nodeSelected key w = bool_decide (key ∈ nodeKeysOf (selection w)).
Proof.
  unfold nodeSelected. destruct (selection w) as [[]|]; simpl; try done;
    symmetry; apply bool_decide_eq_false_2; set_solver.
Qed.

Lemma set_selection_twice s1 s2 w :
  set_selection s2 (set_selection s1 w) = set_selection s2 w.
Proof. done. Qed.

(** ** Clicks *)

(** C2: a click on this node's image, while not resizing, is reported as
    handled and changes nothing but the selection.  With shift, the node's
    selected flag becomes the negation of [isSelected] and the node-level
    selection of every other key is as before.  Without shift, the selection
    is first cleared of every node and then holds this node alone. *)
Theorem onClick_on_image (nodeKey : NodeKey) (isSelected : bool)
    (event : MouseEvent) (img : Element) (w : World) :
  imageRef w = Some img →
  me_target event = Some img →
  ∃ w', onClick nodeKey isSelected false event w = Return true w'
    ∧ w' = set_selection (selection w') w
    ∧ if shiftKey event then
        nodeSelected nodeKey w' = negb isSelected
        ∧ ∀ k, k ≠ nodeKey → nodeSelected k w' = nodeSelected k w
      else
        ∃ wc, clearSelection w = Return tt wc
          ∧ (∀ k, nodeSelected k wc = false)
          ∧ setSelected nodeKey true wc = Return tt w'
          ∧ selection w' = Some (NodeSelection {[nodeKey]}).
Proof.
  intros Href Htgt. unfold onClick. unfold_M.
  rewrite Href, Htgt, bool_decide_eq_true_2 by done.
  destruct (shiftKey event).
  - rewrite setSelected_run. eexists. split; [done|]. split; [done|].
    rewrite nodeSelected_set_selection. split.
    + destruct isSelected; simpl.
      * apply bool_decide_eq_false_2.
        rewrite elem_of_difference, elem_of_singleton. tauto.
      * apply bool_decide_eq_true_2, elem_of_union_l. by apply elem_of_singleton.
    + intros k Hk. rewrite nodeSelected_set_selection, nodeSelected_nodeKeysOf.
      apply bool_decide_ext. destruct isSelected; simpl.
      * rewrite elem_of_difference, elem_of_singleton. tauto.
      * rewrite elem_of_union, elem_of_singleton. tauto.
  - rewrite clearSelection_run.
    set (wc := if isNodeSelection (selection w) then _ else w).
    rewrite setSelected_run.
    assert (Hwc : nodeKeysOf (selection wc) = ∅).
    { subst wc. destruct (selection w) as [[]|] eqn:E; simpl; by rewrite ?E. }
    assert (Hsame : ∀ s, set_selection s wc = set_selection s w).
    { intros s. subst wc. by destruct (isNodeSelection (selection w)). }
    rewrite Hwc, Hsame. simpl. rewrite (right_id_L ∅ (∪)).
    eexists. split; [done|]. split; [done|].
    exists wc. repeat split.
    + intros k. rewrite nodeSelected_nodeKeysOf, Hwc.
      apply bool_decide_eq_false_2. set_solver.
    + rewrite setSelected_run, Hwc, Hsame. simpl. by rewrite (right_id_L ∅ (∪)).
Qed.

Lemma onClick_on_image_witness :
  ∃ w', onClick "img1" true false shiftClick selectedWorld = Return true w'
    ∧ w' = set_selection (selection w') selectedWorld
    ∧ nodeSelected "img1" w' = false
    ∧ ∀ k, k ≠ "img1" → nodeSelected k w' = nodeSelected k selectedWorld.
Proof.
  exact (onClick_on_image "img1" true shiftClick imgElement selectedWorld
           eq_refl eq_refl).
Defined.

(** A plain click on the image while another node is selected with it:
    afterwards the node of this instance is the only one selected. *)
Example onClick_plain_example :
  onClick "img1" true false plainClick
    (set_selection (Some (NodeSelection {[ "img1"; "img2" ]})) selectedWorld)
  = Return true selectedWorld.
Proof. vm_compute. reflexivity. Qed.

(** ** Resizing *)

Lemma onClick_resizing nodeKey isSelected event w :
  onClick nodeKey isSelected true event w = Return true w.
Proof. done. Qed.

Lemma onResizeEnd_run nodeKey nextWidth nextHeight w :
  ∃ w1, onResizeEnd nodeKey nextWidth nextHeight w = Return tt w1
    ∧ isResizingState w1 = isResizingState w
    ∧ now w1 = now w
    ∧ timers w1 = insert_timer (now w + 200, ResetIsResizing) (timers w)
    ∧ selection w1 = selection w.
Proof.
  unfold onResizeEnd, setTimeout, getNodeByKey, node_setWidthAndHeight. unfold_M.
  simpl. destruct (isImageNode _); eexists; by repeat split.
Qed.

Lemma advance_single_pending dt due cb w :
  timers w = [(due, cb)] → now w + dt < due →
  advance dt w = set_clock (now w + dt) [(due, cb)] w.
Proof.
  intros Ht Hlt. unfold advance. rewrite Ht.
  rewrite filter_cons_True by (simpl; lia).
  rewrite filter_cons_False by (simpl; lia).
  done.
Qed.

Lemma advance_single_due dt due w :
  timers w = [(due, ResetIsResizing)] → due ≤ now w + dt →
  advance dt w = set_isResizingState false (set_clock (now w + dt) [] w).
Proof.
  intros Ht Hle. unfold advance. rewrite Ht.
  rewrite filter_cons_False by (simpl; lia).
  rewrite filter_cons_True by (simpl; lia).
  done.
Qed.

(** C3, as the code has it: a click that arrives while [isResizing] holds is
    reported as handled and leaves the world, hence the selection, as it is.
    [onResizeEnd] leaves [isResizing] set and schedules its reset 200 ms
    later.  When no reset scheduled by an earlier [onResizeEnd] is still
    pending, the node stays resizing for the whole of those 200 ms, every
    click delivered in that time is swallowed, and the state is left once
    200 ms have passed. *)
Theorem onResizeEnd_grace_period (nodeKey : NodeKey) (showCaption : bool)
    (caption : LexicalEditor) (isSelected : bool) (activeEditor : LexicalEditor)
    (nextWidth nextHeight : Dimension) (w : World) :
  timers w = [] →
  isResizingState w = true →
  (∀ event w0, onClick nodeKey isSelected true event w0 = Return true w0)
  ∧ ∃ w1, onResizeEnd nodeKey nextWidth nextHeight w = Return tt w1
      ∧ isResizingState w1 = true
      ∧ timers w1 = [(now w + 200, ResetIsResizing)]
      ∧ (∀ dt event, dt < 200 →
           isResizingState (advance dt w1) = true
           ∧ selection (advance dt w1) = selection w
           ∧ currentListener nodeKey showCaption caption isSelected
               (CLICK_COMMAND event) activeEditor (advance dt w1)
             = Return true (advance dt w1))
      ∧ (∀ dt, 200 ≤ dt → isResizingState (advance dt w1) = false).
Proof.
  intros Htimers Hres. split; [intros; apply onClick_resizing|].
  destruct (onResizeEnd_run nodeKey nextWidth nextHeight w)
    as (w1 & Hrun & Hres1 & Hnow1 & Ht1 & Hsel1).
  rewrite Htimers in Ht1. simpl in Ht1.
  exists w1. split; [done|]. split; [congruence|]. split; [done|]. split.
  - intros dt event Hdt.
    rewrite (advance_single_pending dt _ _ w1 Ht1) by lia.
    assert (Hr : isResizingState (set_clock (now w1 + dt) [(now w + 200, ResetIsResizing)] w1) = true)
      by (simpl; congruence).
    split; [done|]. split; [done|].
    unfold currentListener. by rewrite Hr.
  - intros dt Hdt. by rewrite (advance_single_due dt _ w1 Ht1) by lia.
Qed.

Lemma onResizeEnd_grace_period_witness :
  (∀ event w0, onClick "img1" true true event w0 = Return true w0)
  ∧ ∃ w1, onResizeEnd "img1" (number 300) (number 200) resizingWorld = Return tt w1
      ∧ isResizingState w1 = true
      ∧ timers w1 = [(200, ResetIsResizing)]
      ∧ (∀ dt event, dt < 200 →
           isResizingState (advance dt w1) = true
           ∧ selection (advance dt w1) = Some (NodeSelection {[ "img1" ]})
           ∧ currentListener "img1" false captionEditor true
               (CLICK_COMMAND event) parentEditor (advance dt w1)
             = Return true (advance dt w1))
      ∧ (∀ dt, 200 ≤ dt → isResizingState (advance dt w1) = false).
Proof.
  exact (onResizeEnd_grace_period "img1" false captionEditor true parentEditor
           (number 300) (number 200) resizingWorld eq_refl eq_refl).
Defined.

(** C3, as stated, fails: 50 ms after the second resize-end the reset
    scheduled by the first one runs, the node is no longer resizing, and a
    shift-click delivered then is not swallowed: it deselects the node. *)
Lemma onResizeEnd_stale_reset :
  let w := advance 50 secondResizeEnd in
  isResizingState secondResizeEnd = true
  ∧ now secondResizeEnd = 150
  ∧ timers secondResizeEnd = [(200, ResetIsResizing); (350, ResetIsResizing)]
  ∧ isResizingState w = false
  ∧ nodeSelected "img1" w = true
  ∧ ∃ w', currentListener "img1" false captionEditor true
            (CLICK_COMMAND shiftClick) parentEditor w = Return true w'
      ∧ nodeSelected "img1" w' = false.
Proof.
  cbv zeta. repeat split; try (vm_compute; done).
  eexists. split; vm_compute; done.
Qed.

(** ** Enter and Escape *)

Lemma onEnter_preconditions_fail showCaption caption isSelected event w :
  isSelected && isNodeSelection (selection w)
    && bool_decide (length (liveNodes (nodeMap w) (selection w)) = 1) = false →
  onEnter showCaption caption isSelected event w = Return false w.
Proof.
  intros H. unfold onEnter, getSelection, getNodes. unfold_M. by rewrite H.
Qed.

(** C4: Enter on the selected node, when the selection is a node selection
    that designates exactly one node and the caption is shown, empties the
    document selection, moves focus into the caption editor, prevents the
    default action and is reported as handled. *)
Theorem onEnter_showCaption (caption : LexicalEditor) (event : KeyboardEvent)
    (w : World) :
  isNodeSelection (selection w) = true →
  length (liveNodes (nodeMap w) (selection w)) = 1 →
  ∃ w', onEnter true caption true event w = Return true w'
    ∧ selection w' = None
    ∧ activeElement w' = Some (FocusEditor caption)
    ∧ ke_id event ∈ defaultPrevented w'
    ∧ nodeMap w' = nodeMap w.
Proof.
  intros Hsel Hone. unfold onEnter, getSelection, getNodes. unfold_M.
  rewrite Hsel, Hone. simpl.
  eexists. split; [done|]. simpl. repeat split. apply elem_of_union_l.
  by apply elem_of_singleton.
Qed.

Lemma onEnter_showCaption_witness :
  ∃ w', onEnter true captionEditor true enterKey selectedWorld = Return true w'
    ∧ selection w' = None
    ∧ activeElement w' = Some (FocusEditor captionEditor)
    ∧ 11 ∈ defaultPrevented w'
    ∧ nodeMap w' = nodeMap selectedWorld.
Proof.
  apply (onEnter_showCaption captionEditor enterKey selectedWorld);
    vm_compute; reflexivity.
Defined.

(** C5, as the code has it: Enter on the selected node, when the selection
    is a node selection that designates exactly one node and the caption is
    not shown, never touches the selection.  When the options button exists
    and does not hold focus, focus moves to it, the default action is
    prevented and the event is reported as handled.  When there is no button,
    or the button already holds focus, nothing changes and the event is
    declined. *)
Theorem onEnter_no_caption (caption : LexicalEditor) (event : KeyboardEvent)
    (w : World) :
  isNodeSelection (selection w) = true →
  length (liveNodes (nodeMap w) (selection w)) = 1 →
  ∃ handled w', onEnter false caption true event w = Return handled w'
    ∧ selection w' = selection w
    ∧ nodeMap w' = nodeMap w
    ∧ match buttonRef w with
      | Some button =>
          if decide (activeElement w = Some (FocusElement button))
          then handled = false ∧ w' = w
          else handled = true
               ∧ activeElement w' = Some (FocusElement button)
               ∧ ke_id event ∈ defaultPrevented w'
      | None => handled = false ∧ w' = w
      end.
Proof.
  intros Hsel Hone. unfold onEnter, getSelection, getNodes. unfold_M.
  rewrite Hsel, Hone. simpl.
  destruct (buttonRef w) as [button|]; [|by exists false, w].
  destruct (decide (activeElement w = Some (FocusElement button))) as [Heq|Hne].
  - rewrite bool_decide_eq_false_2 by (intros Hn; by apply Hn).
    by exists false, w.
  - rewrite bool_decide_eq_true_2 by done. simpl.
    eexists true, _. split; [done|]. simpl. repeat split.
    apply elem_of_union_l. by apply elem_of_singleton.
Qed.

Lemma onEnter_no_caption_witness :
  ∃ handled w', onEnter false captionEditor true enterKey selectedWorld = Return handled w'
    ∧ selection w' = selection selectedWorld
    ∧ nodeMap w' = nodeMap selectedWorld
    ∧ handled = true
    ∧ activeElement w' = Some (FocusElement optionsButton)
    ∧ 11 ∈ defaultPrevented w'.
Proof.
  apply (onEnter_no_caption captionEditor enterKey selectedWorld);
    vm_compute; reflexivity.
Defined.

(** C5, as stated, fails: with no options button, or with the button
    already focused, Enter is declined and nothing changes. *)
Lemma onEnter_no_caption_declines :
  isNodeSelection (selection noButtonWorld) = true
  ∧ length (liveNodes (nodeMap noButtonWorld) (selection noButtonWorld)) = 1
  ∧ onEnter false captionEditor true enterKey noButtonWorld
    = Return false noButtonWorld
  ∧ activeElement noButtonWorld ≠ Some (FocusElement optionsButton)
  ∧ onEnter false captionEditor true enterKey buttonFocusedWorld
    = Return false buttonFocusedWorld.
Proof.
  repeat split; vm_compute; done.
Qed.

(** C6, as the code has it: Escape is handled exactly when the caption
    editor is the active editor or the event target is identical to the
    button reference.  The handler then leaves this node as the node-level
    selection and moves focus to the root element of the editor when the
    editor has one; without a root element focus stays where it is.
    Otherwise the event is declined and nothing changes. *)
Theorem onEscape_restores_selection (nodeKey : NodeKey) (caption : LexicalEditor)
    (event : KeyboardEvent) (w : World) :
  ((activeEditorRef w = Some caption ∨ buttonRef w = ke_target event)
   ∧ ∃ w', onEscape nodeKey caption event w = Return true w'
       ∧ selection w' = Some (NodeSelection {[nodeKey]})
       ∧ activeElement w'
         = match rootElement w with
           | Some root => Some (FocusElement root)
           | None => activeElement w
           end
       ∧ nodeMap w' = nodeMap w)
  ∨ (¬ (activeEditorRef w = Some caption ∨ buttonRef w = ke_target event)
     ∧ onEscape nodeKey caption event w = Return false w).
Proof.
  unfold onEscape, getRootElement, setSelection, element_focus. unfold_M.
  destruct (decide (activeEditorRef w = Some caption)) as [Hc|Hc];
    [|destruct (decide (buttonRef w = ke_target event)) as [Hb|Hb]].
  3: { right. split; [tauto|].
       by rewrite !bool_decide_eq_false_2 by done. }
  all: left; split; [tauto|].
  1: rewrite (bool_decide_eq_true_2 _ Hc), orb_true_l.
  2: rewrite (bool_decide_eq_true_2 _ Hb), orb_true_r.
  all: rewrite setSelected_run; simpl;
    rewrite (right_id_L ∅ (∪));
    destruct (rootElement w); eexists; by repeat split.
Qed.

(** C6, as stated, fails: when the editor has no root element, Escape from
    the caption editor is handled and the node is selected again, but focus
    is not moved: it stays in the caption editor. *)
Lemma onEscape_without_root_keeps_focus :
  ∃ w', activeEditorRef detachedCaptionWorld = Some captionEditor
    ∧ onEscape "img1" captionEditor escapeKey detachedCaptionWorld = Return true w'
    ∧ selection w' = Some (NodeSelection {[ "img1" ]})
    ∧ activeElement w' = Some (FocusEditor captionEditor)
    ∧ ∀ root, activeElement w' ≠ Some (FocusElement root).
Proof.
  eexists. split; [done|]. split; [vm_compute; reflexivity|].
  repeat split; vm_compute; done.
Qed.

(** ** Right click *)

Lemma onClick_keeps_dispatched nodeKey isSelected isResizing event w :
  ∃ handled w', onClick nodeKey isSelected isResizing event w = Return handled w'
    ∧ dispatched w' = dispatched w
    ∧ nodeMap w' = nodeMap w.
Proof.
  unfold onClick. unfold_M. destruct isResizing; [by exists true, w|].
  destruct (bool_decide _); [|exists false, w; split; [reflexivity|done]].
  destruct (shiftKey event).
  - rewrite setSelected_run. eexists _, _. split; [reflexivity|done].
  - rewrite clearSelection_run, setSelected_run.
    eexists _, _. split; [reflexivity|].
    by destruct (isNodeSelection (selection w)).
Qed.

Lemma onRightClick_null_target nodeKey showCaption caption editor isSelected
    isResizing event w :
  me_target event = None →
  onRightClick nodeKey showCaption caption editor isSelected isResizing event w
  = Throw TypeError w.
Proof.
  intros Htgt. unfold onRightClick, getSelection. unfold_M. by rewrite Htgt.
Qed.

(** C7, as the code has it: for a context-menu event with a target, the
    right-click-on-image command is dispatched, with the event as payload,
    exactly when the target is an [IMG] element (of whatever node) and the
    selection is a range selection that designates exactly one node
    (whichever it is).  The command has the listener of the click command,
    [onClick], and the world after the dispatch is the one [onClick] leaves. *)
Theorem onRightClick_dispatches (nodeKey : NodeKey) (showCaption : bool)
    (caption editor : LexicalEditor) (isSelected isResizing : bool)
    (event : MouseEvent) (domElement : Element) (w : World) :
  me_target event = Some domElement →
  commandListener nodeKey showCaption caption isSelected isResizing
    (RIGHT_CLICK_IMAGE_COMMAND event) editor
  = commandListener nodeKey showCaption caption isSelected isResizing
      (CLICK_COMMAND event) editor
  ∧ ∃ w', onRightClick nodeKey showCaption caption editor isSelected isResizing
            event w = Return tt w'
      ∧ ((tagName domElement = "IMG"
          ∧ isRangeSelection (selection w) = true
          ∧ length (liveNodes (nodeMap w) (selection w)) = 1
          ∧ dispatched w' = dispatched w ++ [RIGHT_CLICK_IMAGE_COMMAND event]
          ∧ w' = world_of (onClick nodeKey isSelected isResizing event
                   (set_dispatched
                      (dispatched w ++ [RIGHT_CLICK_IMAGE_COMMAND event]) w)))
         ∨ (¬ (tagName domElement = "IMG"
               ∧ isRangeSelection (selection w) = true
               ∧ length (liveNodes (nodeMap w) (selection w)) = 1)
            ∧ w' = w)).
Proof.
  intros Htgt. split; [done|].
  unfold onRightClick, getSelection, getNodes, dispatchCommand. unfold_M.
  rewrite Htgt. simpl.
  destruct (decide (tagName domElement = "IMG")) as [Htag|Htag].
  2: { rewrite bool_decide_eq_false_2 by done. simpl.
       exists w. split; [done|]. right. split; [tauto|done]. }
  rewrite bool_decide_eq_true_2 by done. simpl.
  destruct (isRangeSelection (selection w)) eqn:Hrange; simpl.
  2: { exists w. split; [done|]. right. split; [|done]. intros (_ & ? & _). done. }
  destruct (decide (length (liveNodes (nodeMap w) (selection w)) = 1)) as [Hone|Hone].
  2: { rewrite bool_decide_eq_false_2 by done.
       exists w. split; [done|]. right. split; [tauto|done]. }
  rewrite bool_decide_eq_true_2 by done.
  set (w0 := set_dispatched _ w).
  destruct (onClick_keeps_dispatched nodeKey isSelected isResizing event w0)
    as (handled & w' & Hrun & Hdisp & _).
  unfold commandListener. unfold_M. rewrite Hrun.
  exists w'. split; [by destruct handled|]. left. by repeat split.
Qed.

Lemma onRightClick_dispatches_witness :
  ∃ w', onRightClick "img1" false captionEditor parentEditor false false
          rightClickOnImage imageRangeWorld = Return tt w'
    ∧ dispatched w' = [RIGHT_CLICK_IMAGE_COMMAND rightClickOnImage].
Proof.
  destruct (onRightClick_dispatches "img1" false captionEditor parentEditor
              false false rightClickOnImage imgElement imageRangeWorld eq_refl)
    as (_ & w' & Hrun & [(_ & _ & _ & Hdisp & _) | (Hno & _)]).
  - exists w'. split; [exact Hrun | exact Hdisp].
  - exfalso. apply Hno. repeat split; vm_compute; reflexivity.
Defined.

(** C7, as stated, fails: the instance of node ["img1"] dispatches the
    command for a right click on the image element of another node, while
    the range selection lies in a text node and does not hold ["img1"]. *)
Lemma onRightClick_other_image :
  me_target rightClickOnOtherImage ≠ imageRef textRangeWorld
  ∧ selection textRangeWorld = Some (RangeSelection [ "t1" ])
  ∧ ∃ w', onRightClick "img1" false captionEditor parentEditor false false
            rightClickOnOtherImage textRangeWorld = Return tt w'
      ∧ dispatched w' = [RIGHT_CLICK_IMAGE_COMMAND rightClickOnOtherImage].
Proof.
  split; [vm_compute; done|]. split; [done|].
  eexists. split; vm_compute; reflexivity.
Qed.

(** ** Delete and Backspace *)

Lemma onDelete_run nodeKey isSelected event w :
  onDelete nodeKey isSelected event w
  = Return false
      (if isSelected && isNodeSelection (selection w) then
         let w1 := set_defaultPrevented ({[ke_id event]} ∪ defaultPrevented w) w in
         if isImageNode (nodeMap w !! nodeKey)
         then set_nodeMap (delete nodeKey (nodeMap w)) w1 else w1
       else w).
Proof.
  unfold onDelete, getSelection, preventDefault, getNodeByKey, node_remove.
  unfold_M. destruct (isSelected && isNodeSelection (selection w)); [|done].
  simpl. by destruct (isImageNode (nodeMap w !! nodeKey)).
Qed.

(** C8: Delete or Backspace, when this node is selected and the selection is
    a node selection, leaves no image node under [nodeKey] and touches no
    other node: the image node the key resolved to is removed from the
    document.  When the node is not selected, or the selection is not a node
    selection, the document is as before. *)
Theorem onDelete_removes_node (nodeKey : NodeKey) (isSelected : bool)
    (event : KeyboardEvent) (w : World) :
  ∃ w', onDelete nodeKey isSelected event w = Return false w'
    ∧ (((isSelected = true ∧ isNodeSelection (selection w) = true)
        ∧ isImageNode (nodeMap w' !! nodeKey) = false
        ∧ (∀ k, k ≠ nodeKey → nodeMap w' !! k = nodeMap w !! k)
        ∧ nodeMap w' = (if isImageNode (nodeMap w !! nodeKey)
                        then delete nodeKey (nodeMap w) else nodeMap w))
       ∨ (¬ (isSelected = true ∧ isNodeSelection (selection w) = true)
          ∧ nodeMap w' = nodeMap w)).
Proof.
  rewrite onDelete_run. eexists. split; [done|].
  destruct isSelected; simpl; [|right; split; [intros []; done | done]].
  destruct (isNodeSelection (selection w));
    [|right; split; [intros []; done | done]].
  left. split; [done|].
  destruct (isImageNode (nodeMap w !! nodeKey)) eqn:Himg; simpl.
  - repeat split.
    + by rewrite lookup_delete_eq.
    + intros k Hk. by rewrite lookup_delete_ne.
  - by repeat split.
Qed.

(** C9: when [nodeKey] does not resolve to an image node, Delete, Backspace,
    [setShowCaption] and [onResizeEnd] all return normally, nothing is
    thrown, and the document is as before. *)
Theorem unresolved_node_is_noop (nodeKey : NodeKey) (showCaption : bool)
    (caption activeEditor : LexicalEditor) (isSelected isResizing : bool)
    (event : KeyboardEvent) (nextWidth nextHeight : Dimension) (w : World) :
  isImageNode (nodeMap w !! nodeKey) = false →
  (∃ w1, commandListener nodeKey showCaption caption isSelected isResizing
           (KEY_DELETE_COMMAND event) activeEditor w = Return false w1
     ∧ nodeMap w1 = nodeMap w)
  ∧ (∃ w2, commandListener nodeKey showCaption caption isSelected isResizing
             (KEY_BACKSPACE_COMMAND event) activeEditor w = Return false w2
       ∧ nodeMap w2 = nodeMap w)
  ∧ setShowCaption nodeKey w = Return tt w
  ∧ (∃ w3, onResizeEnd nodeKey nextWidth nextHeight w = Return tt w3
       ∧ nodeMap w3 = nodeMap w).
Proof.
  intros Hgone. simpl. rewrite onDelete_run, Hgone.
  assert (Hdel : ∃ w1,
    Return false (if isSelected && isNodeSelection (selection w)
                  then let w1 := set_defaultPrevented
                         ({[ke_id event]} ∪ defaultPrevented w) w in w1
                  else w) = Return false w1 ∧ nodeMap w1 = nodeMap w).
  { eexists. split; [done|]. by destruct (isSelected && _). }
  split; [done|]. split; [done|]. split.
  - unfold setShowCaption, getNodeByKey. unfold_M. by rewrite Hgone.
  - unfold onResizeEnd, setTimeout, getNodeByKey. unfold_M. simpl.
    rewrite Hgone. by eexists.
Qed.

Lemma unresolved_node_is_noop_witness :
  (∃ w1, commandListener "img1" false captionEditor true false
           (KEY_DELETE_COMMAND deleteKey) parentEditor deletedNodeWorld
         = Return false w1
     ∧ nodeMap w1 = nodeMap deletedNodeWorld)
  ∧ (∃ w2, commandListener "img1" false captionEditor true false
             (KEY_BACKSPACE_COMMAND deleteKey) parentEditor deletedNodeWorld
           = Return false w2
       ∧ nodeMap w2 = nodeMap deletedNodeWorld)
  ∧ setShowCaption "img1" deletedNodeWorld = Return tt deletedNodeWorld
  ∧ (∃ w3, onResizeEnd "img1" (number 300) (number 200) deletedNodeWorld
           = Return tt w3
       ∧ nodeMap w3 = nodeMap deletedNodeWorld).
Proof.
  exact (unresolved_node_is_noop "img1" false captionEditor parentEditor true
           false deleteKey (number 300) (number 200) deletedNodeWorld eq_refl).
Defined.

(** C10: the listener of Delete and of Backspace always returns [false],
    also when it removed the node, so the listeners that come after it on
    the bus still run, from the world it leaves.  What it suppresses is the
    default action of the event, and only when the node is selected and the
    selection is a node selection. *)
Theorem onDelete_never_handled (nodeKey : NodeKey) (showCaption : bool)
    (caption activeEditor : LexicalEditor) (isSelected isResizing : bool)
    (event : KeyboardEvent) (lower : list (M bool)) (w : World) :
  ∃ w', commandListener nodeKey showCaption caption isSelected isResizing
          (KEY_DELETE_COMMAND event) activeEditor w = Return false w'
    ∧ commandListener nodeKey showCaption caption isSelected isResizing
        (KEY_BACKSPACE_COMMAND event) activeEditor w = Return false w'
    ∧ triggerCommandListeners
        (commandListener nodeKey showCaption caption isSelected isResizing
           (KEY_DELETE_COMMAND event) activeEditor :: lower) w
      = triggerCommandListeners lower w'
    ∧ triggerCommandListeners
        (commandListener nodeKey showCaption caption isSelected isResizing
           (KEY_BACKSPACE_COMMAND event) activeEditor :: lower) w
      = triggerCommandListeners lower w'
    ∧ defaultPrevented w'
      = (if isSelected && isNodeSelection (selection w)
         then {[ke_id event]} ∪ defaultPrevented w else defaultPrevented w)
    ∧ selection w' = selection w.
Proof.
  simpl. unfold_M. rewrite onDelete_run. eexists. split; [done|].
  split; [done|]. split; [done|]. split; [done|].
  destruct (isSelected && isNodeSelection (selection w)); [|done].
  simpl. by destruct (isImageNode (nodeMap w !! nodeKey)).
Qed.

(** * Further properties of the component *)

(** ** Committing dimensions and the caption flag *)

(** X1: [onResizeEnd] on a live image node stores exactly the two dimensions it
    is given, keeps the source and the caption flag of the node, and touches
    no other node. *)
Theorem onResizeEnd_commits_dimensions (nodeKey : NodeKey)
    (nextWidth nextHeight : Dimension) (i : ImageNode) (w : World) :
  nodeMap w !! nodeKey = Some (Image i) →
  ∃ w', onResizeEnd nodeKey nextWidth nextHeight w = Return tt w'
    ∧ nodeMap w' !! nodeKey
      = Some (Image {| __src := __src i; __width := nextWidth;
                       __height := nextHeight;
                       __showCaption := __showCaption i |})
    ∧ (∀ k, k ≠ nodeKey → nodeMap w' !! k = nodeMap w !! k)
    ∧ selection w' = selection w.
Proof.
  intros Hnode.
  unfold onResizeEnd, setTimeout, getNodeByKey, node_setWidthAndHeight. unfold_M.
  simpl. rewrite Hnode. simpl. eexists. split; [done|]. simpl. repeat split.
  - by rewrite lookup_alter_eq, Hnode.
  - intros k Hk. by rewrite lookup_alter_ne.
Qed.

Lemma onResizeEnd_commits_dimensions_witness :
  ∃ w', onResizeEnd "img1" (number 300) (number 200) selectedWorld = Return tt w'
    ∧ nodeMap w' !! "img1"
      = Some (Image {| __src := "a.png"; __width := number 300;
                       __height := number 200; __showCaption := false |})
    ∧ (∀ k, k ≠ "img1" → nodeMap w' !! k = nodeMap selectedWorld !! k)
    ∧ selection w' = selection selectedWorld.
Proof.
  exact (onResizeEnd_commits_dimensions "img1" (number 300) (number 200)
           anImage selectedWorld eq_refl).
Defined.

(** X2: [setShowCaption] on a live image node turns the caption flag on, keeps
    the source and the dimensions and touches no other node; calling it
    again changes nothing more. *)
Theorem setShowCaption_turns_on_once (nodeKey : NodeKey) (i : ImageNode)
    (w : World) :
  nodeMap w !! nodeKey = Some (Image i) →
  ∃ w', setShowCaption nodeKey w = Return tt w'
    ∧ nodeMap w' !! nodeKey
      = Some (Image {| __src := __src i; __width := __width i;
                       __height := __height i; __showCaption := true |})
    ∧ (∀ k, k ≠ nodeKey → nodeMap w' !! k = nodeMap w !! k)
    ∧ setShowCaption nodeKey w' = Return tt w'.
Proof.
  intros Hnode.
  unfold setShowCaption, getNodeByKey, node_setShowCaption. unfold_M.
  rewrite Hnode. simpl. eexists. split; [done|]. simpl.
  rewrite lookup_alter_eq, Hnode. simpl. repeat split.
  - intros k Hk. by rewrite lookup_alter_ne.
  - f_equal. unfold set_nodeMap. simpl. f_equal.
    apply map_eq. intros k. destruct (decide (k = nodeKey)) as [->|Hk].
    + by rewrite !lookup_alter_eq, Hnode.
    + by rewrite !lookup_alter_ne.
Qed.

Lemma setShowCaption_turns_on_once_witness :
  ∃ w', setShowCaption "img1" selectedWorld = Return tt w'
    ∧ nodeMap w' !! "img1"
      = Some (Image {| __src := "a.png"; __width := inherit;
                       __height := inherit; __showCaption := true |})
    ∧ (∀ k, k ≠ "img1" → nodeMap w' !! k = nodeMap selectedWorld !! k)
    ∧ setShowCaption "img1" w' = Return tt w'.
Proof.
  exact (setShowCaption_turns_on_once "img1" anImage selectedWorld eq_refl).
Defined.

(** ** Timers *)

Lemma foldl_run_callback l w :
  now (foldl run_callback w l) = now w
  ∧ timers (foldl run_callback w l) = timers w
  ∧ selection (foldl run_callback w l) = selection w
  ∧ nodeMap (foldl run_callback w l) = nodeMap w
  ∧ isResizingState (foldl run_callback w l)
    = match l with [] => isResizingState w | _ => false end.
Proof.
  revert w. induction l as [|[due []] l IH]; intros w; [done|].
  simpl. destruct (IH (run_callback w (due, ResetIsResizing)))
    as (Hn & Ht & Hs & Hm & Hr).
  rewrite Hn, Ht, Hs, Hm, Hr. repeat split. by destruct l.
Qed.

Lemma advance_now dt w : now (advance dt w) = now w + dt.
Proof. unfold advance. by rewrite (proj1 (foldl_run_callback _ _)). Qed.

Lemma advance_timers dt w :
  timers (advance dt w) = filter (λ p, ¬ p.1 ≤ now w + dt) (timers w).
Proof.
  unfold advance. by rewrite (proj1 (proj2 (foldl_run_callback _ _))).
Qed.

Lemma advance_fired dt w p :
  p ∈ timers w → p.1 ≤ now w + dt → isResizingState (advance dt w) = false.
Proof.
  intros Hin Hdue. unfold advance.
  rewrite (proj2 (proj2 (proj2 (proj2 (foldl_run_callback _ _))))).
  assert (Hf : p ∈ filter (λ p, p.1 ≤ now w + dt) (timers w))
    by (apply list_elem_of_filter; done).
  destruct (filter _ (timers w)); [by apply elem_of_nil in Hf | done].
Qed.

Lemma elem_of_insert_timer p q l :
  q ∈ insert_timer p l ↔ q = p ∨ q ∈ l.
Proof.
  induction l as [|r l IH]; simpl.
  - rewrite list_elem_of_singleton. split; [by left | intros [?|H]; [done|]].
    by apply elem_of_nil in H.
  - case_decide; rewrite !elem_of_cons; [rewrite IH|]; tauto.
Qed.

(** X3: The node never stays resizing: whatever timers are pending, once 200 ms
    have passed after a call of [onResizeEnd], with no new resize start in
    between, [isResizing] is false.  This holds however often [onResizeEnd]
    was called before. *)
Theorem onResizeEnd_eventually_not_resizing (nodeKey : NodeKey)
    (nextWidth nextHeight : Dimension) (dt : nat) (w : World) :
  200 ≤ dt →
  ∃ w1, onResizeEnd nodeKey nextWidth nextHeight w = Return tt w1
    ∧ isResizingState (advance dt w1) = false.
Proof.
  intros Hdt.
  destruct (onResizeEnd_run nodeKey nextWidth nextHeight w)
    as (w1 & Hrun & _ & Hnow & Ht & _).
  exists w1. split; [done|].
  apply (advance_fired dt w1 (now w + 200, ResetIsResizing)).
  - rewrite Ht. apply elem_of_insert_timer. by left.
  - simpl. lia.
Qed.

Lemma onResizeEnd_eventually_not_resizing_witness :
  ∃ w1, onResizeEnd "img1" (number 320) (number 210) secondResizeEnd = Return tt w1
    ∧ isResizingState (advance 200 w1) = false.
Proof.
  apply (onResizeEnd_eventually_not_resizing "img1" (number 320) (number 210)
           200 secondResizeEnd). lia.
Defined.

(** X4: A resize that starts less than 200 ms after a resize-end does not cancel
    the reset that resize-end scheduled: the node is resizing when the new
    drag starts, and is no longer resizing once the 200 ms are over, although
    the new drag has not ended. *)
Theorem onResizeStart_keeps_pending_reset (nodeKey : NodeKey)
    (nextWidth nextHeight : Dimension) (dt1 dt2 : nat) (w : World) :
  dt1 < 200 →
  200 ≤ dt1 + dt2 →
  ∃ w1 w3, onResizeEnd nodeKey nextWidth nextHeight w = Return tt w1
    ∧ onResizeStart (advance dt1 w1) = Return tt w3
    ∧ isResizingState w3 = true
    ∧ isResizingState (advance dt2 w3) = false.
Proof.
  intros H1 H2.
  destruct (onResizeEnd_run nodeKey nextWidth nextHeight w)
    as (w1 & Hrun & _ & Hnow & Ht & _).
  exists w1, (set_isResizingState true (advance dt1 w1)).
  split; [done|]. split; [done|]. split; [done|].
  apply (advance_fired dt2 _ (now w + 200, ResetIsResizing)).
  - simpl. rewrite advance_timers. apply list_elem_of_filter. split.
    + simpl. lia.
    + rewrite Ht. apply elem_of_insert_timer. by left.
  - simpl. rewrite advance_now. lia.
Qed.

Lemma onResizeStart_keeps_pending_reset_witness :
  ∃ w1 w3, onResizeEnd "img1" (number 300) (number 200) resizingWorld = Return tt w1
    ∧ onResizeStart (advance 100 w1) = Return tt w3
    ∧ isResizingState w3 = true
    ∧ isResizingState (advance 100 w3) = false.
Proof.
  apply (onResizeStart_keeps_pending_reset "img1" (number 300) (number 200)
           100 100 resizingWorld); lia.
Defined.

(** ** Clicks, again *)

Lemma set_selection_same w : set_selection (selection w) w = w.
Proof. by destruct w. Qed.

(** X5: [onClick] never throws and never changes anything but the selection: no
    node, no focus, no timer, no default action.  It reports the event as
    handled exactly when the node is resizing or the target is the image
    reference, and when it declines the world is untouched. *)
Theorem onClick_touches_only_selection (nodeKey : NodeKey)
    (isSelected isResizing : bool) (event : MouseEvent) (w : World) :
  ∃ handled w',
    onClick nodeKey isSelected isResizing event w = Return handled w'
    ∧ w' = set_selection (selection w') w
    ∧ (handled = true ↔ isResizing = true ∨ me_target event = imageRef w)
    ∧ (handled = false → w' = w).
Proof.
  unfold onClick. unfold_M. destruct isResizing.
  { exists true, w. rewrite set_selection_same. split; [done|]. split; [done|].
    split; [tauto | done]. }
  destruct (decide (me_target event = imageRef w)) as [Heq|Hne].
  - rewrite bool_decide_eq_true_2 by done.
    assert (∃ w', (if shiftKey event then setSelected nodeKey (negb isSelected)
                   else λ w0, match clearSelection w0 with
                              | Return _ w1 => setSelected nodeKey true w1
                              | Throw e w1 => Throw e w1
                              end) w = Return tt w'
                  ∧ w' = set_selection (selection w') w) as (w' & Hrun & Hw').
    { destruct (shiftKey event).
      - rewrite setSelected_run. by eexists.
      - rewrite clearSelection_run, setSelected_run. eexists. split; [done|].
        by destruct (isNodeSelection (selection w)). }
    rewrite Hrun. exists true, w'. split; [done|]. split; [done|].
    split; [tauto | done].
  - rewrite bool_decide_eq_false_2 by done.
    exists false, w. rewrite set_selection_same. split; [reflexivity|].
    split; [done|]. split; [|done]. split; [done|]. intros [?|?]; done.
Qed.

(** X6: Once a resize has started, the listener of this instance consumes every
    click and every right-click-on-image command, whatever the target and
    without any effect: the listeners that come after it on the bus do not
    run. *)
Theorem resizing_swallows_clicks (nodeKey : NodeKey) (showCaption : bool)
    (caption activeEditor : LexicalEditor) (isSelected : bool)
    (event : MouseEvent) (lower : list (M bool)) (w : World) :
  ∃ w1, onResizeStart w = Return tt w1
    ∧ triggerCommandListeners
        (currentListener nodeKey showCaption caption isSelected
           (CLICK_COMMAND event) activeEditor :: lower) w1 = Return true w1
    ∧ triggerCommandListeners
        (currentListener nodeKey showCaption caption isSelected
           (RIGHT_CLICK_IMAGE_COMMAND event) activeEditor :: lower) w1
      = Return true w1
    ∧ selection w1 = selection w
    ∧ timers w1 = timers w.
Proof.
  exists (set_isResizingState true w). split; [done|].
  unfold currentListener. simpl. unfold_M. by repeat split.
Qed.

(** X7: When the node is not resizing, a click whose target is not the image
    reference is passed on unchanged: the bus goes on with the later
    listeners from the same world. *)
Theorem click_elsewhere_passes_on (nodeKey : NodeKey) (showCaption : bool)
    (caption activeEditor : LexicalEditor) (isSelected : bool)
    (event : MouseEvent) (lower : list (M bool)) (w : World) :
  me_target event ≠ imageRef w →
  triggerCommandListeners
    (commandListener nodeKey showCaption caption isSelected false
       (CLICK_COMMAND event) activeEditor :: lower) w
  = triggerCommandListeners lower w.
Proof.
  intros Hne. simpl. unfold onClick. unfold_M.
  by rewrite bool_decide_eq_false_2.
Qed.

Lemma click_elsewhere_passes_on_witness :
  triggerCommandListeners
    (commandListener "img1" false captionEditor true false
       (CLICK_COMMAND clickElsewhere) parentEditor
     :: [onClick "img2" false false clickElsewhere]) selectedWorld
  = triggerCommandListeners [onClick "img2" false false clickElsewhere] selectedWorld.
Proof.
  apply (click_elsewhere_passes_on "img1" false captionEditor parentEditor true
           clickElsewhere [onClick "img2" false false clickElsewhere] selectedWorld).
  vm_compute. discriminate.
Defined.

(** ** Enter, again *)

(** X8: [onEnter] never throws and never changes the document.  When it reports
    the event as handled, the node was selected, the selection was a node
    selection designating exactly one live node, and the default action of
    the event has been prevented; when it declines, the world is untouched.
    So Enter on a selection of two nodes, or on a range selection, does
    nothing here. *)
Theorem onEnter_handled_or_untouched (showCaption : bool) (caption : LexicalEditor)
    (isSelected : bool) (event : KeyboardEvent) (w : World) :
  ∃ handled w',
    onEnter showCaption caption isSelected event w = Return handled w'
    ∧ nodeMap w' = nodeMap w
    ∧ (handled = true →
         isSelected = true
         ∧ isNodeSelection (selection w) = true
         ∧ length (liveNodes (nodeMap w) (selection w)) = 1
         ∧ ke_id event ∈ defaultPrevented w')
    ∧ (handled = false → w' = w).
Proof.
  unfold onEnter, getSelection, getNodes. unfold_M.
  destruct isSelected; simpl; [|by exists false, w].
  destruct (isNodeSelection (selection w)); simpl; [|by exists false, w].
  destruct (decide (length (liveNodes (nodeMap w) (selection w)) = 1)) as [H1|H1].
  2: { rewrite bool_decide_eq_false_2 by done. by exists false, w. }
  rewrite bool_decide_eq_true_2 by done.
  assert (Hin : ∀ X : gset nat, ke_id event ∈ {[ke_id event]} ∪ X).
  { intros X. apply elem_of_union_l. by apply elem_of_singleton. }
  destruct showCaption.
  { eexists true, _. split; [reflexivity|]. simpl. by repeat split. }
  destruct (buttonRef w) as [b|]; [|by exists false, w].
  destruct (bool_decide _); [|by exists false, w].
  eexists true, _. split; [reflexivity|]. simpl. by repeat split.
Qed.

(** ** Right click, again *)

(** X9: A context-menu event without a target makes [onRightClick] throw a
    [TypeError] (it reads [tagName] of [null]); nothing is dispatched and the
    world is untouched. *)
Theorem onRightClick_without_target_throws (nodeKey : NodeKey)
    (showCaption : bool) (caption editor : LexicalEditor)
    (isSelected isResizing : bool) (event : MouseEvent) (w : World) :
  me_target event = None →
  onRightClick nodeKey showCaption caption editor isSelected isResizing event w
  = Throw TypeError w.
Proof.
  intros Htgt. unfold onRightClick, getSelection. unfold_M. by rewrite Htgt.
Qed.

Lemma onRightClick_without_target_throws_witness :
  onRightClick "img1" false captionEditor parentEditor false false
    rightClickNoTarget imageRangeWorld
  = Throw TypeError imageRangeWorld.
Proof.
  exact (onRightClick_without_target_throws "img1" false captionEditor
           parentEditor false false rightClickNoTarget imageRangeWorld eq_refl).
Defined.

Lemma onRightClick_dispatch_run nodeKey showCaption caption editor isSelected
    isResizing event domElement w :
  me_target event = Some domElement →
  tagName domElement = "IMG" →
  isRangeSelection (selection w) = true →
  length (liveNodes (nodeMap w) (selection w)) = 1 →
  onRightClick nodeKey showCaption caption editor isSelected isResizing event w
  = match onClick nodeKey isSelected isResizing event
            (set_dispatched (dispatched w ++ [RIGHT_CLICK_IMAGE_COMMAND event]) w)
    with
    | Return _ w' => Return tt w'
    | Throw e w' => Throw e w'
    end.
Proof.
  intros Htgt Htag Hrange Hone.
  unfold onRightClick, getSelection, getNodes, dispatchCommand. unfold_M.
  rewrite Htgt. simpl. rewrite Hrange, Hone.
  rewrite !bool_decide_eq_true_2 by done. simpl. unfold_M.
  by destruct (onClick _ _ _ _ _) as [[] ?|].
Qed.

Lemma clear_then_select key w :
  match clearSelection w with
  | Return _ w1 => setSelected key true w1
  | Throw e w1 => Throw e w1
  end = Return tt (set_selection (Some (NodeSelection {[key]})) w).
Proof.
  rewrite clearSelection_run, setSelected_run.
  destruct (selection w) as [[]|] eqn:E; simpl; rewrite ?E; simpl;
    by rewrite (right_id_L ∅ (∪)).
Qed.

(** X10: A right click without shift on the image of this node, while the
    selection is a range over one node and the node is not resizing, ends
    with this node as the only node-level selection: the command is
    dispatched, [onClick] handles it, and the range selection is replaced.
    The document is not changed. *)
Theorem onRightClick_selects_node (nodeKey : NodeKey) (showCaption : bool)
    (caption editor : LexicalEditor) (isSelected : bool)
    (event : MouseEvent) (img : Element) (w : World) :
  me_target event = Some img →
  imageRef w = Some img →
  tagName img = "IMG" →
  shiftKey event = false →
  isRangeSelection (selection w) = true →
  length (liveNodes (nodeMap w) (selection w)) = 1 →
  ∃ w', onRightClick nodeKey showCaption caption editor isSelected false event w
        = Return tt w'
    ∧ selection w' = Some (NodeSelection {[nodeKey]})
    ∧ dispatched w' = dispatched w ++ [RIGHT_CLICK_IMAGE_COMMAND event]
    ∧ nodeMap w' = nodeMap w.
Proof.
  intros Htgt Href Htag Hshift Hrange Hone.
  rewrite (onRightClick_dispatch_run _ _ _ _ _ _ _ img) by done.
  unfold onClick. unfold_M. simpl.
  rewrite Htgt, Href, bool_decide_eq_true_2, Hshift by done.
  rewrite clear_then_select. by eexists.
Qed.

Lemma onRightClick_selects_node_witness :
  ∃ w', onRightClick "img1" false captionEditor parentEditor false false
          rightClickOnImage imageRangeWorld = Return tt w'
    ∧ selection w' = Some (NodeSelection {[ "img1" ]})
    ∧ dispatched w' = dispatched imageRangeWorld
                      ++ [RIGHT_CLICK_IMAGE_COMMAND rightClickOnImage]
    ∧ nodeMap w' = nodeMap imageRangeWorld.
Proof.
  apply (onRightClick_selects_node "img1" false captionEditor parentEditor false
           rightClickOnImage imgElement imageRangeWorld); vm_compute; reflexivity.
Defined.

(** X11: A right click on an [IMG] element that is not the image of this node,
    while the selection is a range over one node: this instance dispatches
    the command all the same, but its own listener declines it, so the only
    trace is the dispatched command; the selection stays as it is. *)
Theorem onRightClick_foreign_image_only_dispatches (nodeKey : NodeKey)
    (showCaption : bool) (caption editor : LexicalEditor) (isSelected : bool)
    (event : MouseEvent) (domElement : Element) (w : World) :
  me_target event = Some domElement →
  imageRef w ≠ Some domElement →
  tagName domElement = "IMG" →
  isRangeSelection (selection w) = true →
  length (liveNodes (nodeMap w) (selection w)) = 1 →
  onRightClick nodeKey showCaption caption editor isSelected false event w
  = Return tt
      (set_dispatched (dispatched w ++ [RIGHT_CLICK_IMAGE_COMMAND event]) w).
Proof.
  intros Htgt Href Htag Hrange Hone.
  rewrite (onRightClick_dispatch_run _ _ _ _ _ _ _ domElement) by done.
  unfold onClick. unfold_M. simpl.
  rewrite Htgt, bool_decide_eq_false_2; [done|]. intros Heq. by apply Href.
Qed.

Lemma onRightClick_foreign_image_only_dispatches_witness :
  onRightClick "img1" false captionEditor parentEditor false false
    rightClickOnOtherImage textRangeWorld
  = Return tt
      (set_dispatched [RIGHT_CLICK_IMAGE_COMMAND rightClickOnOtherImage]
         textRangeWorld).
Proof.
  apply (onRightClick_foreign_image_only_dispatches "img1" false captionEditor
           parentEditor false rightClickOnOtherImage otherImgElement
           textRangeWorld); vm_compute; done.
Defined.

(** ** Escape, again *)

Lemma onEscape_handled_run nodeKey caption event w :
  activeEditorRef w = Some caption ∨ buttonRef w = ke_target event →
  onEscape nodeKey caption event w
  = Return true
      (let w1 := set_selection (Some (NodeSelection {[nodeKey]})) w in
       match rootElement w with
       | Some root => set_activeElement (Some (FocusElement root)) w1
       | None => w1
       end).
Proof.
  intros Hcond.
  unfold onEscape, getRootElement, setSelection, element_focus. unfold_M.
  assert (Hb : bool_decide (activeEditorRef w = Some caption)
               || bool_decide (buttonRef w = ke_target event) = true).
  { destruct Hcond as [H|H]; rewrite (bool_decide_eq_true_2 _ H);
      [done | apply orb_true_r]. }
  rewrite Hb, setSelected_run. simpl. rewrite (right_id_L ∅ (∪)).
  by destruct (rootElement w).
Qed.

(** X12: The selection-change listener records the editor the change came from
    and declines.  An Escape that follows is handled exactly when that
    editor is the caption editor or the event target is the button
    reference: the parent editor becoming active again turns Escape off. *)
Theorem selection_change_arms_escape (nodeKey : NodeKey) (showCaption : bool)
    (caption activeEditor : LexicalEditor) (isSelected isResizing : bool)
    (event : KeyboardEvent) (w : World) :
  ∃ w1 handled w2,
    commandListener nodeKey showCaption caption isSelected isResizing
      SELECTION_CHANGE_COMMAND activeEditor w = Return false w1
    ∧ w1 = set_activeEditorRef (Some activeEditor) w
    ∧ onEscape nodeKey caption event w1 = Return handled w2
    ∧ (handled = true ↔ activeEditor = caption ∨ buttonRef w = ke_target event).
Proof.
  exists (set_activeEditorRef (Some activeEditor) w).
  destruct (decide (activeEditor = caption ∨ buttonRef w = ke_target event))
    as [Hyes|Hno].
  - eexists true, _. split; [done|]. split; [done|]. split; [|tauto].
    apply onEscape_handled_run. simpl. destruct Hyes as [->|?]; tauto.
  - exists false, (set_activeEditorRef (Some activeEditor) w).
    split; [done|]. split; [done|]. split; [|split; [done | tauto]].
    unfold onEscape. unfold_M. simpl.
    rewrite !bool_decide_eq_false_2; [done | tauto |].
    intros [= ->]. tauto.
Qed.

(** X13: Enter then Escape with the caption shown: Enter empties the selection
    and puts focus in the caption editor; once the caption editor has
    reported a selection change, Escape selects the node again, it alone,
    and gives focus back to the root element.  The document is the same
    throughout. *)
Theorem enter_escape_through_caption (nodeKey : NodeKey)
    (caption : LexicalEditor) (isResizing : bool)
    (enter escape : KeyboardEvent) (root : Element) (w : World) :
  isNodeSelection (selection w) = true →
  length (liveNodes (nodeMap w) (selection w)) = 1 →
  rootElement w = Some root →
  ∃ w1 w2 w3,
    onEnter true caption true enter w = Return true w1
    ∧ selection w1 = None
    ∧ activeElement w1 = Some (FocusEditor caption)
    ∧ commandListener nodeKey true caption true isResizing
        SELECTION_CHANGE_COMMAND caption w1 = Return false w2
    ∧ onEscape nodeKey caption escape w2 = Return true w3
    ∧ selection w3 = Some (NodeSelection {[nodeKey]})
    ∧ activeElement w3 = Some (FocusElement root)
    ∧ nodeMap w3 = nodeMap w.
Proof.
  intros Hsel Hone Hroot.
  assert (∃ w1, onEnter true caption true enter w = Return true w1
            ∧ selection w1 = None ∧ activeElement w1 = Some (FocusEditor caption)
            ∧ rootElement w1 = rootElement w ∧ nodeMap w1 = nodeMap w)
    as (w1 & Henter & Hs1 & Ha1 & Hr1 & Hm1).
  { unfold onEnter, getSelection, getNodes. unfold_M.
    rewrite Hsel, Hone. simpl. by eexists. }
  exists w1, (set_activeEditorRef (Some caption) w1). eexists.
  split; [done|]. split; [done|]. split; [done|]. split; [done|].
  split; [apply onEscape_handled_run; by left|].
  simpl. rewrite Hr1, Hroot. by repeat split.
Qed.

Lemma enter_escape_through_caption_witness :
  ∃ w1 w2 w3,
    onEnter true captionEditor true enterKey selectedWorld = Return true w1
    ∧ selection w1 = None
    ∧ activeElement w1 = Some (FocusEditor captionEditor)
    ∧ commandListener "img1" true captionEditor true false
        SELECTION_CHANGE_COMMAND captionEditor w1 = Return false w2
    ∧ onEscape "img1" captionEditor escapeKey w2 = Return true w3
    ∧ selection w3 = Some (NodeSelection {[ "img1" ]})
    ∧ activeElement w3 = Some (FocusElement editorRoot)
    ∧ nodeMap w3 = nodeMap selectedWorld.
Proof.
  apply (enter_escape_through_caption "img1" captionEditor false enterKey
           escapeKey editorRoot selectedWorld); vm_compute; reflexivity.
Defined.

(** X14: Enter then Escape without caption: Enter moves focus to the options
    button and keeps the selection; Escape pressed on the button selects the
    node, it alone, and gives focus back to the root element. *)
Theorem enter_escape_through_button (nodeKey : NodeKey)
    (caption : LexicalEditor) (enter escape : KeyboardEvent)
    (button root : Element) (w : World) :
  isNodeSelection (selection w) = true →
  length (liveNodes (nodeMap w) (selection w)) = 1 →
  buttonRef w = Some button →
  activeElement w ≠ Some (FocusElement button) →
  rootElement w = Some root →
  ke_target escape = Some button →
  ∃ w1 w2,
    onEnter false caption true enter w = Return true w1
    ∧ selection w1 = selection w
    ∧ activeElement w1 = Some (FocusElement button)
    ∧ onEscape nodeKey caption escape w1 = Return true w2
    ∧ selection w2 = Some (NodeSelection {[nodeKey]})
    ∧ activeElement w2 = Some (FocusElement root)
    ∧ nodeMap w2 = nodeMap w.
Proof.
  intros Hsel Hone Hbutton Hfocus Hroot Htarget.
  assert (∃ w1, onEnter false caption true enter w = Return true w1
            ∧ selection w1 = selection w
            ∧ activeElement w1 = Some (FocusElement button)
            ∧ rootElement w1 = rootElement w ∧ nodeMap w1 = nodeMap w
            ∧ buttonRef w1 = buttonRef w)
    as (w1 & Henter & Hs1 & Ha1 & Hr1 & Hm1 & Hb1).
  { unfold onEnter, getSelection, getNodes. unfold_M.
    rewrite Hsel, Hone, Hbutton. simpl.
    rewrite bool_decide_eq_true_2 by done. by eexists. }
  exists w1. eexists.
  split; [done|]. split; [done|]. split; [done|].
  split; [apply onEscape_handled_run; right; congruence|].
  simpl. rewrite Hr1, Hroot. by repeat split.
Qed.

Lemma enter_escape_through_button_witness :
  ∃ w1 w2,
    onEnter false captionEditor true enterKey selectedWorld = Return true w1
    ∧ selection w1 = selection selectedWorld
    ∧ activeElement w1 = Some (FocusElement optionsButton)
    ∧ onEscape "img1" captionEditor escapeOnButton w1 = Return true w2
    ∧ selection w2 = Some (NodeSelection {[ "img1" ]})
    ∧ activeElement w2 = Some (FocusElement editorRoot)
    ∧ nodeMap w2 = nodeMap selectedWorld.
Proof.
  apply (enter_escape_through_button "img1" captionEditor enterKey
           escapeOnButton optionsButton editorRoot selectedWorld);
    vm_compute; done.
Defined.

(** ** After the node is gone *)

(** X15: Once Delete has removed the node, everything that would mutate the node
    again is without effect on the document: a second Delete or Backspace, a
    late [setShowCaption], a late [onResizeEnd].  None of them throws. *)
Theorem delete_then_nothing_more (nodeKey : NodeKey) (isSelected' : bool)
    (event event' : KeyboardEvent) (nextWidth nextHeight : Dimension)
    (w : World) :
  isNodeSelection (selection w) = true →
  ∃ w1, onDelete nodeKey true event w = Return false w1
    ∧ isImageNode (nodeMap w1 !! nodeKey) = false
    ∧ (∃ w2, onDelete nodeKey isSelected' event' w1 = Return false w2
         ∧ nodeMap w2 = nodeMap w1)
    ∧ setShowCaption nodeKey w1 = Return tt w1
    ∧ (∃ w3, onResizeEnd nodeKey nextWidth nextHeight w1 = Return tt w3
         ∧ nodeMap w3 = nodeMap w1).
Proof.
  intros Hsel. rewrite onDelete_run, Hsel. simpl.
  eexists. split; [done|].
  set (w1 := if isImageNode (nodeMap w !! nodeKey) then _ else _).
  assert (Hgone : isImageNode (nodeMap w1 !! nodeKey) = false).
  { subst w1. destruct (isImageNode (nodeMap w !! nodeKey)) eqn:Himg; simpl.
    - by rewrite lookup_delete_eq.
    - done. }
  split; [done|]. split; [|split].
  - rewrite onDelete_run, Hgone. eexists. split; [done|].
    by destruct (isSelected' && _).
  - unfold setShowCaption, getNodeByKey. unfold_M. by rewrite Hgone.
  - unfold onResizeEnd, setTimeout, getNodeByKey. unfold_M. simpl.
    rewrite Hgone. by eexists.
Qed.

Lemma delete_then_nothing_more_witness :
  ∃ w1, onDelete "img1" true deleteKey selectedWorld = Return false w1
    ∧ isImageNode (nodeMap w1 !! "img1") = false
    ∧ (∃ w2, onDelete "img1" true deleteKey w1 = Return false w2
         ∧ nodeMap w2 = nodeMap w1)
    ∧ setShowCaption "img1" w1 = Return tt w1
    ∧ (∃ w3, onResizeEnd "img1" (number 300) (number 200) w1 = Return tt w3
         ∧ nodeMap w3 = nodeMap w1).
Proof.
  exact (delete_then_nothing_more "img1" true deleteKey deleteKey
           (number 300) (number 200) selectedWorld eq_refl).
Defined.

(** ** The loader over time *)

Lemma useSuspenseImage_world src w :
  world_of (useSuspenseImage src w)
  = if bool_decide (src ∈ imageCache w) then w
    else set_images (images w ++ [src]) w.
Proof.
  unfold useSuspenseImage. unfold_M. by destruct (bool_decide _).
Qed.

Lemma loaderStep_grows w e :
  imageCache w ⊆ imageCache (loaderStep w e)
  ∧ images w `prefix_of` images (loaderStep w e).
Proof.
  destruct e as [src|img]; simpl.
  - rewrite useSuspenseImage_world. destruct (bool_decide _); simpl.
    + done.
    + split; [done|]. by apply prefix_app_r.
  - unfold img_onload. destruct (images w !! img); simpl; [|done].
    split; [|done]. apply union_subseteq_r.
Qed.

Lemma loaderStep_cacheBacked w e : cacheBacked w → cacheBacked (loaderStep w e).
Proof.
  intros Hinv. destruct e as [src|img]; simpl.
  - rewrite useSuspenseImage_world. destruct (bool_decide _); [done|].
    intros s Hs. simpl in *. apply elem_of_app. left. by apply Hinv.
  - unfold img_onload. destruct (images w !! img) as [src|] eqn:Hlook; [|done].
    intros s Hs. simpl in *. apply elem_of_union in Hs as [Hs|Hs].
    + apply elem_of_singleton in Hs as ->. by eapply list_elem_of_lookup_2.
    + by apply Hinv.
Qed.

(** X16: Whatever calls of [useSuspenseImage] and [onload] events follow one
    another from the start of the program, a source is in [imageCache] only
    if an [Image] was created for it: nothing else ever adds to the cache. *)
Theorem imageCache_only_holds_loaded_sources (events : list LoaderEvent) :
  cacheBacked (foldl loaderStep initialWorld events).
Proof.
  assert (H0 : cacheBacked initialWorld).
  { intros s Hs. simpl in Hs. by apply not_elem_of_empty in Hs. }
  revert H0. generalize initialWorld.
  induction events as [|e events IH]; intros w Hw; [done|].
  simpl. apply IH. by apply loaderStep_cacheBacked.
Qed.

(** X17: The cache only grows: a source that is loaded stays loaded through every
    later call and [onload], so [useSuspenseImage] returns for it from then
    on without starting a load. *)
Theorem loaded_source_stays_loaded (src : string) (events : list LoaderEvent)
    (w : World) :
  src ∈ imageCache w →
  let w' := foldl loaderStep w events in
  useSuspenseImage src w' = Return tt w'
  ∧ imageCache w ⊆ imageCache w'
  ∧ images w `prefix_of` images w'.
Proof.
  intros Hin. simpl.
  assert (Hgrow : imageCache w ⊆ imageCache (foldl loaderStep w events)
                  ∧ images w `prefix_of` images (foldl loaderStep w events)).
  { clear Hin. revert w. induction events as [|e events IH]; intros w; [done|].
    simpl. destruct (loaderStep_grows w e) as [Hc Hi].
    destruct (IH (loaderStep w e)) as [Hc' Hi'].
    split; [by etrans | by etrans]. }
  destruct Hgrow as [Hc Hi]. split; [|done].
  apply useSuspenseImage_cached. by apply Hc.
Qed.

Lemma loaded_source_stays_loaded_witness :
  let w' := foldl loaderStep selectedWorld
              [CallUseSuspenseImage "b.png"; ImageLoaded 1;
               CallUseSuspenseImage "a.png"] in
  useSuspenseImage "a.png" w' = Return tt w'
  ∧ imageCache selectedWorld ⊆ imageCache w'
  ∧ images selectedWorld `prefix_of` images w'.
Proof.
  apply (loaded_source_stays_loaded "a.png"
           [CallUseSuspenseImage "b.png"; ImageLoaded 1;
            CallUseSuspenseImage "a.png"] selectedWorld).
  vm_compute. reflexivity.
Defined.

(** ** Rendering *)

(** X18: [LazyImage] for a source that is not loaded suspends: it throws the
    promise of a load it has just started and returns no element.  Once that
    load has completed, the same call returns the [img] element, with the
    source, alternative text and dimensions it was given and with native
    dragging off. *)
Theorem LazyImage_suspends_then_renders (altText : string)
    (className : option string) (src : string) (width height : Dimension)
    (maxWidth : Z) (w : World) :
  src ∉ imageCache w →
  ∃ w1, LazyImage altText className src width height maxWidth w
        = Throw (PendingPromise (length (images w))) w1
    ∧ loadsStarted src w1 = S (loadsStarted src w)
    ∧ let w2 := img_onload (length (images w)) w1 in
      LazyImage altText className src width height maxWidth w2
      = Return {| img_className := classNameOrUndefined className;
                  img_src := src; img_alt := altText;
                  style_height := height; style_maxWidth := maxWidth;
                  style_width := width; img_draggable := "false" |} w2.
Proof.
  intros Hout. unfold LazyImage. unfold_M.
  rewrite (useSuspenseImage_pending _ _ Hout).
  eexists. split; [done|]. split.
  - rewrite loadsStarted_set_images_app.
    rewrite filter_cons_True by done. simpl. lia.
  - cbv zeta. rewrite useSuspenseImage_cached; [done|].
    unfold img_onload. simpl. rewrite lookup_app_r by lia.
    rewrite Nat.sub_diag. simpl. apply elem_of_union_l. by apply elem_of_singleton.
Qed.

Lemma LazyImage_suspends_then_renders_witness :
  ∃ w1, LazyImage "alt" (Some "focused ") "b.png" (number 300) inherit 500
          selectedWorld = Throw (PendingPromise 1) w1
    ∧ loadsStarted "b.png" w1 = 1
    ∧ let w2 := img_onload 1 w1 in
      LazyImage "alt" (Some "focused ") "b.png" (number 300) inherit 500 w2
      = Return {| img_className := Some "focused ";
                  img_src := "b.png"; img_alt := "alt";
                  style_height := inherit; style_maxWidth := 500;
                  style_width := number 300; img_draggable := "false" |} w2.
Proof.
  apply (LazyImage_suspends_then_renders "alt" (Some "focused ") "b.png"
           (number 300) inherit 500 selectedWorld).
  vm_compute. discriminate.
Defined.

Lemma render_suspended_step src altText width height maxWidth resizable
    showCaption isSelected isResizing selectionSnapshot w :
  src ∉ imageCache w →
  ImageComponent_render src altText width height maxWidth resizable showCaption
    isSelected isResizing selectionSnapshot w
  = Return None (set_images (images w ++ [src]) w).
Proof.
  intros Hout. unfold ImageComponent_render, Suspense, LazyImage. unfold_M.
  by rewrite (useSuspenseImage_pending _ _ Hout).
Qed.

(** X19: While the source is not loaded the component renders nothing at all
    (no image, no caption container, no resizer), and every such render
    starts one more load: after [n] renders, [n] more loads are under way
    and the source is still not in the cache. *)
Theorem render_before_load_shows_nothing (src altText : string)
    (width height : Dimension) (maxWidth : Z) (resizable showCaption : bool)
    (isSelected isResizing : bool) (selectionSnapshot : option BaseSelection)
    (n : nat) (w : World) :
  src ∉ imageCache w →
  let render := ImageComponent_render src altText width height maxWidth
                  resizable showCaption isSelected isResizing selectionSnapshot in
  let wn := Nat.iter n (λ w, world_of (render w)) w in
  (∃ w', render wn = Return None w')
  ∧ loadsStarted src wn = n + loadsStarted src w
  ∧ src ∉ imageCache wn.
Proof.
  intros Hout. cbv zeta.
  assert (Hn : loadsStarted src
                 (Nat.iter n (λ w, world_of (ImageComponent_render src altText
                    width height maxWidth resizable showCaption isSelected
                    isResizing selectionSnapshot w)) w) = n + loadsStarted src w
               ∧ src ∉ imageCache (Nat.iter n (λ w, world_of
                   (ImageComponent_render src altText width height maxWidth
                      resizable showCaption isSelected isResizing
                      selectionSnapshot w)) w)).
  { induction n as [|n [IHl IHc]]; [done|].
    simpl. rewrite (render_suspended_step _ _ _ _ _ _ _ _ _ _ _ IHc). simpl.
    split; [|done].
    rewrite loadsStarted_set_images_app, IHl.
    rewrite filter_cons_True by done. simpl. lia. }
  destruct Hn as [Hl Hc]. split; [|done].
  eexists. by apply render_suspended_step.
Qed.

Lemma render_before_load_shows_nothing_witness :
  let render := ImageComponent_render "b.png" "alt" inherit inherit 500
                  true true true false (Some (NodeSelection {[ "img1" ]})) in
  let wn := Nat.iter 3 (λ w, world_of (render w)) selectedWorld in
  (∃ w', render wn = Return None w')
  ∧ loadsStarted "b.png" wn = 3 + loadsStarted "b.png" selectedWorld
  ∧ "b.png" ∉ imageCache wn.
Proof.
  apply (render_before_load_shows_nothing "b.png" "alt" inherit inherit 500
           true true true false (Some (NodeSelection {[ "img1" ]})) 3
           selectedWorld).
  vm_compute. discriminate.
Defined.

(** X20: Once the source is loaded the component renders, without starting a
    load.  The wrapper is draggable only when the image carries the class
    ["focused draggable"] and the node is not resizing; the resizer is shown
    only with that class; the class is one of three values and never empty;
    the image itself is never natively draggable; the caption container is
    there exactly when [showCaption] is set. *)
Theorem render_after_load (src altText : string)
    (width height : Dimension) (maxWidth : Z) (resizable showCaption : bool)
    (isSelected isResizing : bool) (selectionSnapshot : option BaseSelection)
    (w : World) :
  src ∈ imageCache w →
  ∃ r, ImageComponent_render src altText width height maxWidth resizable
         showCaption isSelected isResizing selectionSnapshot w
       = Return (Some r) w
    ∧ (wrapper_draggable r = true →
         img_className (lazyImage r) = Some "focused draggable"
         ∧ isResizing = false)
    ∧ (imageResizer r = true →
         img_className (lazyImage r) = Some "focused draggable"
         ∧ resizable = true)
    ∧ (img_className (lazyImage r) = None ↔ isSelected || isResizing = false)
    ∧ img_className (lazyImage r)
      ∈ [None; Some "focused "; Some "focused draggable"]
    ∧ img_draggable (lazyImage r) = "false"
    ∧ captionContainer r = showCaption.
Proof.
  intros Hin. unfold ImageComponent_render, Suspense, LazyImage. unfold_M.
  rewrite (useSuspenseImage_cached _ _ Hin). eexists. split; [done|]. simpl.
  unfold draggable, showResizer, imageClassName, isFocused.
  destruct isSelected, isResizing, resizable,
    (isNodeSelection selectionSnapshot); simpl;
    repeat split; try done; try (intros; discriminate);
    rewrite ?elem_of_cons; auto.
Qed.

Lemma render_after_load_witness :
  ∃ r, ImageComponent_render "a.png" "alt" inherit inherit 500 true false
         true false (Some (NodeSelection {[ "img1" ]})) selectedWorld
       = Return (Some r) selectedWorld
    ∧ wrapper_draggable r = true
    ∧ imageResizer r = true
    ∧ img_className (lazyImage r) = Some "focused draggable"
    ∧ img_draggable (lazyImage r) = "false"
    ∧ captionContainer r = false.
Proof.
  destruct (render_after_load "a.png" "alt" inherit inherit 500 true false
              true false (Some (NodeSelection {[ "img1" ]})) selectedWorld)
    as (r & Hrun & Hdrag & _ & _ & _ & Himg & Hcap).
  { vm_compute. reflexivity. }
  exists r. injection Hrun as <-. by repeat split.
Defined.
